(** * Catalog backend: entity store, row codec, merger and refresh loop

    A shallow embedding of [plugins/catalog-backend/src/database]:
    the [Database] class (row codec, optimistic-concurrency updates,
    locations, update log) and [DatabaseManager] (entity merge and the
    location refresh loop), together with the properties of the design
    document that are checked against them.

    Conventions of the embedding.
    - Asynchronous code is sequential here: every [await] is a bind of the
      state-and-exception monad [M] over the [World] (the three tables and
      the uuid generator).
    - A JSON text column is identified with the value it encodes, so that
      [JSON.parse (JSON.stringify v) = v] holds by construction.
    - A [number] holding a generation is the integer of [Z] it denotes.
      JavaScript's [generation + 1] is an addition of doubles, [js_add],
      which rounds; the SQL expression [generation + 1] of the update by
      uid is an addition of integers.
    - The [tx] handle is implicit: statements act on the tables of the
      current [World], and [transaction] restores them when its body
      throws. *)

From Stdlib Require Import ZArith NArith Ascii String List Lia.
From stdpp Require Import base option list strings pretty gmap sorting.

Local Open Scope Z_scope.
Local Open Scope string_scope.

(** ** JavaScript values *)

(** Payload of [spec]: a JSON document. *)
#[local] Unset Elimination Schemes.
Inductive json : Type :=
| JNull
| JBool (b : bool)
| JNumber (z : Z)
| JString (s : string)
| JArray (l : list json)
| JObject (l : list (string * json)).
#[local] Set Elimination Schemes.

(** [s || null] and [s || undefined] on an optional string: the empty
    string is falsy. *)
Definition truthy_string (s : option string) : option string :=
  match s with
  | Some EmptyString => None
  | _ => s
  end.

(** Truthiness of an optional number: [undefined] and [0] are falsy. *)
Definition truthy_number (n : option Z) : option Z :=
  match n with
  | Some 0 => None
  | _ => n
  end.

(** Truthiness of an optional JSON value: [undefined], [null], [false],
    [0] and the empty string are falsy; every array and object is truthy. *)
Definition truthy_json (j : option json) : option json :=
  match j with
  | Some JNull | Some (JBool false) | Some (JNumber 0)
  | Some (JString EmptyString) => None
  | _ => j
  end.

(** A [number] is an IEEE 754 double: 53 significant bits, round to
    nearest, ties to the even significand. [to_double z] is the double
    nearest to the integer [z]; below [2^53] in magnitude every integer is
    a double. (Integers of magnitude [2^1024] and more, which round to an
    infinity, do not arise: a generation is compared with, or read from,
    an integer column.) *)
Definition to_double (z : Z) : Z :=
  (if Z.abs z <? 2 ^ 53 then z
   else
     let e := Z.log2 (Z.abs z) - 52 in
     let q := Z.abs z / 2 ^ e in
     let r := Z.abs z mod 2 ^ e in
     let half := 2 ^ (e - 1) in
     let q' :=
       if r <? half then q
       else if half <? r then q + 1
       else if Z.even q then q else q + 1 in
     Z.sgn z * (q' * 2 ^ e))%Z.

(** [a + b] on numbers: the exact sum, rounded. *)
Definition js_add (a b : Z) : Z := to_double (a + b).

(** [Number.isSafeInteger]: the integers on which [+ 1] is exact. *)
Definition safe_integer (z : Z) : Prop := Z.abs z < 2 ^ 53.

(** [regex.test(s)] for a regular expression that is a literal text. *)
Definition regex_test (literal s : string) : bool :=
  match String.index 0 literal s with
  | Some _ => true
  | None => false
  end.

(** ** Entities: [DescriptorEnvelope] and the request and response types *)

Record Metadata : Type := {
  uid : option string;
  etag : option string;
  generation : option Z;
  name : option string;
  namespace : option string;
  labels : option (gmap string string);
  annotations : option (gmap string string)
}.

Record DescriptorEnvelope : Type := {
  apiVersion : string;
  kind : string;
  metadata : option Metadata;
  spec : option json
}.

Record DbEntityRequest : Type := {
  locationId : option string;
  entity : DescriptorEnvelope
}.

Record DbEntityResponse : Type := {
  resp_locationId : option string;
  resp_entity : DescriptorEnvelope
}.

(** The empty object [{}] at the type of [metadata]. *)
Definition empty_metadata : Metadata :=
  {| uid := None; etag := None; generation := None; name := None;
     namespace := None; labels := None; annotations := None |}.

(** Object spread [{ ...a, ...b }]: the keys of [b] override those of [a]. *)
Definition spread_metadata (a b : Metadata) : Metadata :=
  {| uid := from_option Some (uid a) (uid b);
     etag := from_option Some (etag a) (etag b);
     generation := from_option Some (generation a) (generation b);
     name := from_option Some (name a) (name b);
     namespace := from_option Some (namespace a) (namespace b);
     labels := from_option Some (labels a) (labels b);
     annotations := from_option Some (annotations a) (annotations b) |}.

(** ** Rows of the three tables *)

Record DbEntitiesRow : Type := {
  row_id : string;
  row_location_id : option string;
  row_etag : string;
  row_generation : Z;
  row_api_version : string;
  row_kind : string;
  row_name : option string;
  row_namespace : option string;
  row_metadata : option Metadata;
  row_spec : option json
}.

Record DbLocationsRow : Type := {
  loc_id : string;
  loc_type : string;
  loc_target : string
}.

Record AddDatabaseLocation : Type := {
  add_type : string;
  add_target : string
}.

Inductive DatabaseLocationUpdateLogStatus : Type := FAIL | SUCCESS.

Record DatabaseLocationUpdateLogEvent : Type := {
  ev_id : string;
  ev_status : DatabaseLocationUpdateLogStatus;
  ev_location_id : string;
  ev_entity_name : option string;
  ev_message : option string
}.

Global Instance status_eq_dec : EqDecision DatabaseLocationUpdateLogStatus.
Proof. solve_decision. Defined.

Global Instance DbLocationsRow_eq_dec : EqDecision DbLocationsRow.
Proof. solve_decision. Defined.

(** ** Errors *)

Inductive JsError : Type :=
| ConflictError (message : string)
| InputError (message : string)
| NotFoundError (message : string)
| ParserError (message : string) (entityName : option string)
| TypeError (message : string)
| DriverError (message : string)
| Error (message : string).

Definition error_message (e : JsError) : string :=
  match e with
  | ConflictError m | InputError m | NotFoundError m | ParserError m _
  | TypeError m | DriverError m | Error m => m
  end.

Definition is_conflict (e : JsError) : bool :=
  match e with ConflictError _ => true | _ => false end.

Inductive Result (A : Type) : Type :=
| Ok (value : A)
| Throw (error : JsError).
Arguments Ok {A} value.
Arguments Throw {A} error.

(** ** The world: tables and the uuid generator *)

Record Tables : Type := {
  entities_table : list DbEntitiesRow;
  locations_table : list DbLocationsRow;
  location_update_log : list DatabaseLocationUpdateLogEvent
}.

(** [uuid_source k] is the value of the [k]-th call of [uuidv4];
    [uuid_count] counts the calls made so far. *)
Record World : Type := {
  tables : Tables;
  uuid_source : nat -> string;
  uuid_count : nat
}.

Definition M (A : Type) : Type := World -> Result A * World.

Definition ret {A} (a : A) : M A := fun w => (Ok a, w).

Definition throw {A} (e : JsError) : M A := fun w => (Throw e, w).

Definition bind {A B} (c : M A) (k : A -> M B) : M B := fun w =>
  match c w with
  | (Ok a, w') => k a w'
  | (Throw e, w') => (Throw e, w')
  end.

(** [try { c } catch (error) { h error }] *)
Definition try_catch {A} (c : M A) (h : JsError -> M A) : M A := fun w =>
  match c w with
  | (Ok a, w') => (Ok a, w')
  | (Throw e, w') => h e w'
  end.

(** [const x = await c1; c2] *)
Notation "'let!' x ':=' c1 'in' c2" := (bind c1 (fun x => c2))
  (at level 10, x name, c1 at level 100, c2 at level 200).

Definition set_tables (t : Tables) (w : World) : World :=
  {| tables := t; uuid_source := uuid_source w; uuid_count := uuid_count w |}.

(** The world after one more call of [uuidv4]. *)
Definition drawn (w : World) : World :=
  {| tables := tables w; uuid_source := uuid_source w;
     uuid_count := S (uuid_count w) |}.

Definition get_tables : M Tables := fun w => (Ok (tables w), w).

Definition put_tables (t : Tables) : M unit := fun w => (Ok tt, set_tables t w).

Definition uuidv4 : M string := fun w =>
  (Ok (uuid_source w (uuid_count w)), drawn w).

(** ** [Buffer.toString('base64')] and [replace(/[^\w]/g, '')] *)

Definition base64_char (n : N) : ascii :=
  if (n <? 26)%N then ascii_of_N (65 + n)
  else if (n <? 52)%N then ascii_of_N (97 + (n - 26))
  else if (n <? 62)%N then ascii_of_N (48 + (n - 52))
  else if (n =? 62)%N then "+"%char
  else "/"%char.

Fixpoint base64_bytes (l : list N) : string :=
  match l with
  | [] => ""
  | [a] =>
      String (base64_char (a / 4))
        (String (base64_char ((a mod 4) * 16)) "==")
  | [a; b] =>
      String (base64_char (a / 4))
        (String (base64_char ((a mod 4) * 16 + b / 16))
           (String (base64_char ((b mod 16) * 4)) "="))
  | a :: b :: c :: rest =>
      String (base64_char (a / 4))
        (String (base64_char ((a mod 4) * 16 + b / 16))
           (String (base64_char ((b mod 16) * 4 + c / 64))
              (String (base64_char (c mod 64)) (base64_bytes rest))))
  end%N.

Definition base64 (s : string) : string :=
  base64_bytes (map N_of_ascii (list_ascii_of_string s)).

(** [\w] is [[A-Za-z0-9_]]. *)
Definition is_word_char (c : ascii) : bool :=
  let n := N_of_ascii c in
  ((65 <=? n) && (n <=? 90) || (97 <=? n) && (n <=? 122)
   || (48 <=? n) && (n <=? 57) || (n =? 95))%N.

Fixpoint strip_non_word (s : string) : string :=
  match s with
  | EmptyString => EmptyString
  | String c s' =>
      if is_word_char c then String c (strip_non_word s')
      else strip_non_word s'
  end.


(** ** Entity row codec *)

Definition serializeMetadata (metadata : option Metadata) : option Metadata :=
  match metadata with
  | None => None
  | Some m =>
      Some {| uid := None; etag := None; generation := None;
              name := name m; namespace := namespace m;
              labels := labels m; annotations := annotations m |}
  end.

Definition serializeSpec (spec : option json) : option json :=
  match truthy_json spec with
  | None => None
  | Some j => Some j
  end.

Definition entityRequestToDb (request : DbEntityRequest) : M DbEntitiesRow :=
  let! u := uuidv4 in
  ret {| row_id := "";
         row_location_id := truthy_string (locationId request);
         row_etag := strip_non_word (base64 u);
         row_generation := 1;
         row_api_version := apiVersion (entity request);
         row_kind := kind (entity request);
         row_name := truthy_string (metadata (entity request) ≫= name);
         row_namespace :=
           truthy_string (metadata (entity request) ≫= namespace);
         row_metadata := serializeMetadata (metadata (entity request));
         row_spec := serializeSpec (spec (entity request)) |}.

Definition entityDbToResponse (row : DbEntitiesRow) : DbEntityResponse :=
  let metadata0 :=
    {| uid := Some (row_id row); etag := Some (row_etag row);
       generation := Some (row_generation row); name := None;
       namespace := None; labels := None; annotations := None |} in
  {| resp_locationId := truthy_string (row_location_id row);
     resp_entity :=
       {| apiVersion := row_api_version row;
          kind := row_kind row;
          metadata :=
            Some match row_metadata row with
                 | Some blob => spread_metadata metadata0 blob
                 | None => metadata0
                 end;
          spec := row_spec row |} |}.

(** ** Statements on the tables *)

Definition with_entities (t : Tables) (rows : list DbEntitiesRow) : Tables :=
  {| entities_table := rows;
     locations_table := locations_table t;
     location_update_log := location_update_log t |}.

Definition with_locations (t : Tables) (rows : list DbLocationsRow) : Tables :=
  {| entities_table := entities_table t;
     locations_table := rows;
     location_update_log := location_update_log t |}.

Definition with_log (t : Tables)
    (events : list DatabaseLocationUpdateLogEvent) : Tables :=
  {| entities_table := entities_table t;
     locations_table := locations_table t;
     location_update_log := events |}.

(** Modelled from the spec: the migrations that declare the tables are not
    among the sources. The storage layer keeps [(name, namespace)] unique
    among the entities, a null namespace being a key value like any other,
    and keeps [target] unique among the locations; a statement that would
    break either is refused with the driver's constraint message. *)
Definition same_entity_key (a b : DbEntitiesRow) : bool :=
  bool_decide (row_name a = row_name b)
  && bool_decide (row_namespace a = row_namespace b).

Definition entities_unique_message : string :=
  "SQLITE_CONSTRAINT: UNIQUE constraint failed: entities.name, entities.namespace".

Definition locations_unique_message : string :=
  "SQLITE_CONSTRAINT: UNIQUE constraint failed: locations.target".

(** Rows paired with the flag "written by this statement": the statement
    is refused when a written row shares its key with another row. *)
Fixpoint update_violation (l : list (bool * DbEntitiesRow)) : bool :=
  match l with
  | [] => false
  | (written, r) :: l' =>
      existsb (fun x => (written || fst x) && same_entity_key r (snd x)) l'
      || update_violation l'
  end.

(** [tx('entities').where(cond).select()] *)
Definition select_entities (cond : DbEntitiesRow -> bool)
    : M (list DbEntitiesRow) :=
  let! t := get_tables in
  ret (List.filter cond (entities_table t)).

(** [tx('entities').insert(row)] *)
Definition insert_entity (row : DbEntitiesRow) : M unit :=
  let! t := get_tables in
  if existsb (same_entity_key row) (entities_table t)
  then throw (DriverError entities_unique_message)
  else put_tables (with_entities t (entities_table t ++ [row])).

(** [tx('entities').where(cond).update(set)]: the number of rows written. *)
Definition update_entities (cond : DbEntitiesRow -> bool)
    (set : DbEntitiesRow -> DbEntitiesRow) : M nat :=
  let! t := get_tables in
  let marked :=
    map (fun r => (cond r, if cond r then set r else r)) (entities_table t) in
  if update_violation marked
  then throw (DriverError entities_unique_message)
  else
    let! _ := put_tables (with_entities t (map snd marked)) in
    ret (length (List.filter cond (entities_table t))).

Definition select_locations (cond : DbLocationsRow -> bool)
    : M (list DbLocationsRow) :=
  let! t := get_tables in
  ret (List.filter cond (locations_table t)).

Definition insert_location (row : DbLocationsRow) : M unit :=
  let! t := get_tables in
  if existsb (fun r => bool_decide (loc_target r = loc_target row))
       (locations_table t)
  then throw (DriverError locations_unique_message)
  else put_tables (with_locations t (locations_table t ++ [row])).

(** [database('locations').where(cond).del()]: the number of rows deleted. *)
Definition delete_locations (cond : DbLocationsRow -> bool) : M nat :=
  let! t := get_tables in
  let! _ := put_tables
    (with_locations t
       (List.filter (fun r => negb (cond r)) (locations_table t))) in
  ret (length (List.filter cond (locations_table t))).

Definition insert_log_event (event : DatabaseLocationUpdateLogEvent)
    : M unit :=
  let! t := get_tables in
  put_tables (with_log t (location_update_log t ++ [event])).

(** [knex.transaction(fn)]: commit when [fn] returns, roll the tables back
    and rethrow when it throws. *)
Definition knex_transaction {T} (fn : M T) : M T := fun w =>
  match fn w with
  | (Ok v, w') => (Ok v, w')
  | (Throw e, w') => (Throw e, set_tables (tables w) w')
  end.

(** *** [orderBy(column, direction)] *)

Definition to_lower_char (c : ascii) : ascii :=
  let n := N_of_ascii c in
  if ((65 <=? n) && (n <=? 90))%N then ascii_of_N (n + 32) else c.

Fixpoint toLowerCase (s : string) : string :=
  match s with
  | EmptyString => EmptyString
  | String c s' => String (to_lower_char c) (toLowerCase s')
  end.

(** Knex's [formatter.direction]: anything but "asc" and "desc" (in any
    letter case) is replaced by ascending order. *)
Definition descending (direction : string) : bool :=
  bool_decide (toLowerCase direction = "desc").

(** Order of a nullable text column: NULL first, then byte-wise. *)
Definition sql_leb (a b : option string) : bool :=
  match a, b with
  | None, _ => true
  | Some _, None => false
  | Some x, Some y => String.leb x y
  end.

Fixpoint insert_by {A} (leb : A -> A -> bool) (x : A) (l : list A) : list A :=
  match l with
  | [] => [x]
  | y :: l' => if leb x y then x :: y :: l' else y :: insert_by leb x l'
  end.

(** A stable sort: rows with equal keys stay in storage order. *)
Definition sort_by {A} (leb : A -> A -> bool) (l : list A) : list A :=
  foldr (insert_by leb) [] l.

Definition orderBy (column : DbEntitiesRow -> option string)
    (direction : string) (rows : list DbEntitiesRow) : list DbEntitiesRow :=
  if descending direction
  then sort_by (fun a b => sql_leb (column b) (column a)) rows
  else sort_by (fun a b => sql_leb (column a) (column b)) rows.

(** ** The [Database] class *)

Definition dquote : string := String (ascii_of_nat 34) EmptyString.

(** [namespace ? `"${namespace}"` : 'null'] *)
Definition quoted_or_null (namespace : option string) : string :=
  match truthy_string namespace with
  | Some ns => dquote ++ ns ++ dquote
  | None => "null"
  end.

Module Database.

Definition transaction {T} (fn : M T) : M T :=
  try_catch (knex_transaction fn) (fun e =>
    if regex_test "SQLITE_CONSTRAINT: UNIQUE" (error_message e)
       || regex_test "unique constraint" (error_message e)
    then throw (ConflictError "Rejected due to a conflicting entity")
    else throw e).

Definition addEntity (request : DbEntityRequest) : M DbEntityResponse :=
  let! newRow := entityRequestToDb request in
  let! id := uuidv4 in
  let newRow :=
    {| row_id := id;
       row_location_id := row_location_id newRow;
       row_etag := row_etag newRow;
       row_generation := 1;
       row_api_version := row_api_version newRow;
       row_kind := row_kind newRow;
       row_name := row_name newRow;
       row_namespace := row_namespace newRow;
       row_metadata := row_metadata newRow;
       row_spec := row_spec newRow |} in
  let! _ := insert_entity newRow in
  let! result :=
    select_entities (fun r => bool_decide (row_id r = row_id newRow)) in
  match result with
  | [] => throw (ConflictError "Failed to read the generated entity")
  | row :: _ => ret (entityDbToResponse row)
  end.

(** [{ ...newRow, id: undefined, generation }]: every column of [newRow]
    but [id], which the statement leaves alone. *)
Definition set_all_but_id (newRow : DbEntitiesRow)
    (generation : DbEntitiesRow -> Z) (r : DbEntitiesRow) : DbEntitiesRow :=
  {| row_id := row_id r;
     row_location_id := row_location_id newRow;
     row_etag := row_etag newRow;
     row_generation := generation r;
     row_api_version := row_api_version newRow;
     row_kind := row_kind newRow;
     row_name := row_name newRow;
     row_namespace := row_namespace newRow;
     row_metadata := row_metadata newRow;
     row_spec := row_spec newRow |}.

(** [{ ...newRow, id: undefined, generation, name: undefined,
    namespace: undefined }] *)
Definition set_all_but_identity (newRow : DbEntitiesRow)
    (generation : DbEntitiesRow -> Z) (r : DbEntitiesRow) : DbEntitiesRow :=
  {| row_id := row_id r;
     row_location_id := row_location_id newRow;
     row_etag := row_etag newRow;
     row_generation := generation r;
     row_api_version := row_api_version newRow;
     row_kind := row_kind newRow;
     row_name := row_name r;
     row_namespace := row_namespace r;
     row_metadata := row_metadata newRow;
     row_spec := row_spec newRow |}.

(** Update by uid, with generation check *)
Definition update_by_uid_with_generation_check (newRow : DbEntitiesRow)
    (uid : string) (generation : Z) : M DbEntityResponse :=
  let! rows :=
    update_entities
      (fun r => bool_decide (row_id r = uid)
                && bool_decide (row_generation r = generation))
      (set_all_but_id newRow (fun _ => js_add generation 1)) in
  match rows with
  | O =>
      throw (ConflictError
        ("No entity matching uid=" ++ dquote ++ uid ++ dquote
         ++ ", generation=" ++ pretty generation))
  | S _ => ret (entityDbToResponse newRow)
  end.

(** Update by uid, unconditionally. The new generation is the SQL
    expression [generation + 1], evaluated by the database on integers. *)
Definition update_by_uid_unconditionally (newRow : DbEntitiesRow)
    (uid : string) : M DbEntityResponse :=
  let! rows :=
    update_entities
      (fun r => bool_decide (row_id r = uid))
      (set_all_but_id newRow (fun r => row_generation r + 1)) in
  match rows with
  | O =>
      throw (ConflictError
        ("No entity matching uid=" ++ dquote ++ uid ++ dquote))
  | S _ =>
      let! result :=
        select_entities (fun r => bool_decide (row_id r = uid)) in
      match result with
      | [] => throw (ConflictError "Failed to read the generated entity")
      | row :: _ => ret (entityDbToResponse row)
      end
  end.

(** Update by name, with generation check *)
Definition update_by_name_with_generation_check (newRow : DbEntitiesRow)
    (name : string) (namespace : option string) (generation : Z)
    : M DbEntityResponse :=
  let! rows :=
    update_entities
      (fun r => bool_decide (row_name r = Some name)
                && bool_decide (row_namespace r = truthy_string namespace)
                && bool_decide (row_generation r = generation))
      (set_all_but_identity newRow (fun _ => js_add generation 1)) in
  match rows with
  | O =>
      throw (ConflictError
        ("No entity matching name=" ++ dquote ++ name ++ dquote
         ++ " namespace=" ++ quoted_or_null namespace
         ++ " generation " ++ pretty generation))
  | S _ =>
      let! result :=
        select_entities
          (fun r => bool_decide (row_name r = Some name)
                    && bool_decide (row_namespace r = truthy_string namespace)
                    && bool_decide
                         (row_generation r = js_add generation 1)) in
      match result with
      | [] => throw (ConflictError "Failed to read the generated entity")
      | row :: _ => ret (entityDbToResponse row)
      end
  end.

(** Update by name, unconditionally *)
Definition update_by_name_unconditionally (newRow : DbEntitiesRow)
    (name : string) (namespace : option string) : M DbEntityResponse :=
  let! oldRows :=
    select_entities
      (fun r => bool_decide (row_name r = Some name)
                && bool_decide (row_namespace r = truthy_string namespace)) in
  match oldRows with
  | [] =>
      throw (ConflictError
        ("No entity matching name=" ++ dquote ++ name ++ dquote
         ++ " namespace=" ++ quoted_or_null namespace))
  | old :: _ =>
      let! rows :=
        update_entities
          (fun r => bool_decide (row_id r = row_id old)
                    && bool_decide (row_generation r = row_generation old))
          (set_all_but_identity newRow
             (fun _ => js_add (row_generation old) 1)) in
      match rows with
      | O =>
          throw (ConflictError
            ("Failed to update name=" ++ dquote ++ name ++ dquote
             ++ " namespace=" ++ quoted_or_null namespace))
      | S _ =>
          let! result :=
            select_entities
              (fun r => bool_decide (row_id r = row_id old)
                        && bool_decide
                             (row_generation r
                              = js_add (row_generation old) 1)) in
          match result with
          | [] => throw (ConflictError "Failed to read the generated entity")
          | row :: _ => ret (entityDbToResponse row)
          end
      end
  end.

Definition updateEntity (request : DbEntityRequest) : M DbEntityResponse :=
  let! newRow := entityRequestToDb request in
  let md := default empty_metadata (metadata (entity request)) in
  match truthy_string (uid md), truthy_number (generation md) with
  | Some uid, Some generation =>
      update_by_uid_with_generation_check newRow uid generation
  | Some uid, None => update_by_uid_unconditionally newRow uid
  | None, _ =>
      match truthy_string (name md), truthy_number (generation md) with
      | Some name, Some generation =>
          update_by_name_with_generation_check newRow name (namespace md)
            generation
      | Some name, None =>
          update_by_name_unconditionally newRow name (namespace md)
      | None, _ =>
          throw (InputError
            "Cannot update entity that has neither uid nor name")
      end
  end.

Definition entities : M (list DbEntityResponse) :=
  let! t := get_tables in
  let rows := orderBy row_namespace "name" (entities_table t) in
  ret (map entityDbToResponse rows).

Definition entity (name : string) (namespace : option string)
    : M (option DbEntityResponse) :=
  let! rows :=
    select_entities
      (fun r => bool_decide (row_name r = Some name)
                && bool_decide (row_namespace r = truthy_string namespace)) in
  match rows with
  | [row] => ret (Some (entityDbToResponse row))
  | _ => ret None
  end.

(** The result is [None] where the JavaScript value is [undefined]. *)
Definition addLocation (location : AddDatabaseLocation)
    : M (option DbLocationsRow) :=
  knex_transaction (
    let! existingLocation :=
      select_locations
        (fun r => bool_decide (loc_target r = add_target location)) in
    match existingLocation with
    | existing :: _ => ret (Some existing)
    | [] =>
        let! id := uuidv4 in
        let! _ := insert_location
          {| loc_id := id; loc_type := add_type location;
             loc_target := add_target location |} in
        let! rows :=
          select_locations (fun r => bool_decide (loc_id r = id)) in
        ret (head rows)
    end).

Definition removeLocation (id : string) : M unit :=
  let! result := delete_locations (fun r => bool_decide (loc_id r = id)) in
  match result with
  | O => throw (NotFoundError ("Found no location with ID " ++ id))
  | S _ => ret tt
  end.

Definition location (id : string) : M DbLocationsRow :=
  let! items := select_locations (fun r => bool_decide (loc_id r = id)) in
  match items with
  | [] => throw (NotFoundError ("Found no location with ID " ++ id))
  | item :: _ => ret item
  end.

Definition locations : M (list DbLocationsRow) :=
  select_locations (fun _ => true).

Definition addLocationUpdateLogEvent (locationId : string)
    (status : DatabaseLocationUpdateLogStatus)
    (entityName : option string) (message : option string) : M unit :=
  let! id := uuidv4 in
  insert_log_event
    {| ev_id := id; ev_status := status; ev_location_id := locationId;
       ev_entity_name := entityName; ev_message := message |}.

(** The class declares no [addOrUpdateEntity] (its tests are commented
    out as well): [database.addOrUpdateEntity] is [undefined], and
    calling it throws. *)
Definition addOrUpdateEntity (request : DbEntityRequest) : M unit :=
  throw (TypeError "database.addOrUpdateEntity is not a function").

End Database.

(** ** [lodash.merge] at the types it is used at

    [merge(object, source)] walks the keys of [source]: a value that is
    [undefined] is skipped when [object] has the key, a plain object is
    merged recursively into the value [object] has (or into a new [{}]),
    and any other value is assigned. *)

Definition merge_value {A} (object source : option A) : option A :=
  match source with
  | Some v => Some v
  | None => object
  end.

Definition merge_record (object source : option (gmap string string))
    : option (gmap string string) :=
  match source with
  | Some src => Some (src ∪ default ∅ object)
  | None => object
  end.

Definition merge_metadata (object source : Metadata) : Metadata :=
  {| uid := merge_value (uid object) (uid source);
     etag := merge_value (etag object) (etag source);
     generation := merge_value (generation object) (generation source);
     name := merge_value (name object) (name source);
     namespace := merge_value (namespace object) (namespace source);
     labels := merge_record (labels object) (labels source);
     annotations := merge_record (annotations object) (annotations source) |}.

(** [lodash.merge(object, { metadata: source })] *)
Definition merge_metadata_into (object : DescriptorEnvelope)
    (source : Metadata) : DescriptorEnvelope :=
  {| apiVersion := apiVersion object;
     kind := kind object;
     metadata :=
       Some (merge_metadata (default empty_metadata (metadata object)) source);
     spec := spec object |}.

(** [lodash.merge({ metadata: object }, source)] *)
Definition merge_onto_metadata (object : Metadata)
    (source : DescriptorEnvelope) : DescriptorEnvelope :=
  {| apiVersion := apiVersion source;
     kind := kind source;
     metadata :=
       Some match metadata source with
            | Some m => merge_metadata object m
            | None => object
            end;
     spec := spec source |}.

(** ** External collaborators of the refresh loop *)

Inductive ReaderItem : Type :=
| ErrorItem (error : JsError)
| DataItem (data : string).

Definition LocationReader : Type :=
  string -> string -> Result (list ReaderItem).

Definition DescriptorParser : Type := string -> Result DescriptorEnvelope.

Definition lift {A} (r : Result A) : M A := fun w => (r, w).

(** [for (const x of l) { body x }] *)
Fixpoint for_of {A} (l : list A) (body : A -> M unit) : M unit :=
  match l with
  | [] => ret tt
  | x :: l' => let! _ := body x in for_of l' body
  end.

(** ** The [DatabaseManager] class *)

Module DatabaseManager.

Definition logUpdateSuccess (locationId : string)
    (entityName : option string) : M unit :=
  Database.addLocationUpdateLogEvent locationId SUCCESS entityName None.

Definition logUpdateFailure (locationId : string) (error : option JsError)
    (entityName : option string) : M unit :=
  Database.addLocationUpdateLogEvent locationId FAIL entityName
    (error_message <$> error).

Definition mergeEntities (base added : DescriptorEnvelope)
    : DescriptorEnvelope :=
  let result := added in
  let result :=
    merge_metadata_into result
      {| uid := metadata base ≫= uid;
         etag := None;
         generation := metadata base ≫= generation;
         name := None; namespace := None; labels := None;
         annotations := None |} in
  match metadata base ≫= annotations with
  | Some base_annotations =>
      merge_onto_metadata
        {| uid := None; etag := None; generation := None; name := None;
           namespace := None; labels := None;
           annotations := Some base_annotations |}
        result
  | None => result
  end.

Definition refreshSingleEntity (locationId : string)
    (entity : DescriptorEnvelope) : M unit :=
  let md := default empty_metadata (metadata entity) in
  match truthy_string (name md) with
  | None => throw (Error "Entities without names are not yet supported")
  | Some name =>
      Database.transaction (
        let! previous := Database.entity name (namespace md) in
        match previous with
        | Some previous =>
            let merged := mergeEntities (resp_entity previous) entity in
            let! _ := Database.updateEntity
              {| locationId := Some locationId; entity := merged |} in
            ret tt
        | None =>
            let! _ := Database.addEntity
              {| locationId := Some locationId; entity := entity |} in
            ret tt
        end)
  end.

(** The refresh loop, over the operation that persists one parsed
    entity. *)
Definition refreshLocationsWith (persist : DbEntityRequest -> M unit)
    (reader : LocationReader) (parser : DescriptorParser) : M unit :=
  let! locations := Database.locations in
  for_of locations (fun location =>
    try_catch (
      let! readerOutput :=
        lift (reader (loc_type location) (loc_target location)) in
      let! _ := for_of readerOutput (fun readerItem =>
        match readerItem with
        | ErrorItem _ => ret tt
        | DataItem data =>
            try_catch (
              let! entity := lift (parser data) in
              let dbc :=
                {| locationId := Some (loc_id location);
                   entity := entity |} in
              let! _ := persist dbc in
              match metadata entity with
              | None =>
                  throw (TypeError
                    "Cannot read property 'name' of undefined")
              | Some md => logUpdateSuccess (loc_id location) (name md)
              end)
            (fun error =>
              let entityName :=
                match error with
                | ParserError _ entityName => entityName
                | _ => None
                end in
              logUpdateFailure (loc_id location) (Some error) entityName)
        end) in
      logUpdateSuccess (loc_id location) None)
    (fun error => logUpdateFailure (loc_id location) (Some error) None)).

Definition refreshLocations : LocationReader -> DescriptorParser -> M unit :=
  refreshLocationsWith Database.addOrUpdateEntity.

End DatabaseManager.

(** ** Vocabulary of the properties *)

Definition entities_of (w : World) : list DbEntitiesRow :=
  entities_table (tables w).

Definition locations_of (w : World) : list DbLocationsRow :=
  locations_table (tables w).

Definition log_of (w : World) : list DatabaseLocationUpdateLogEvent :=
  location_update_log (tables w).

(** The value a run returned, or [default] when it threw. *)
Definition returned {A} (default : A) (run : Result A * World) : A :=
  match fst run with
  | Ok a => a
  | Throw _ => default
  end.

(** *** Requests, responses and entities *)

(** The name and namespace columns a request asks for. *)
Definition request_name (request : DbEntityRequest) : option string :=
  truthy_string (metadata (entity request) ≫= name).

Definition request_namespace (request : DbEntityRequest) : option string :=
  truthy_string (metadata (entity request) ≫= namespace).

(** A stored row holds the name and namespace a request asks for. *)
Definition holds_key_of (request : DbEntityRequest) (r : DbEntitiesRow)
    : Prop :=
  row_name r = request_name request
  ∧ row_namespace r = request_namespace request.

(** The response fields the properties speak about. *)
Definition response_uid (resp : DbEntityResponse) : option string :=
  metadata (resp_entity resp) ≫= uid.

Definition response_etag (resp : DbEntityResponse) : option string :=
  metadata (resp_entity resp) ≫= etag.

Definition response_generation (resp : DbEntityResponse) : option Z :=
  metadata (resp_entity resp) ≫= generation.

(** The name of the entity a response carries. *)
Definition response_name (resp : DbEntityResponse) : option string :=
  metadata (resp_entity resp) ≫= name.

Definition response_namespace (resp : DbEntityResponse) : option string :=
  metadata (resp_entity resp) ≫= namespace.

(** Store-managed fields and annotations of an entity. *)
Definition entity_uid (e : DescriptorEnvelope) : option string :=
  metadata e ≫= uid.

Definition entity_generation (e : DescriptorEnvelope) : option Z :=
  metadata e ≫= generation.

Definition entity_annotations (e : DescriptorEnvelope)
    : option (gmap string string) :=
  metadata e ≫= annotations.

(** The value of an annotation, when the entity has that key. *)
Definition annotation (e : DescriptorEnvelope) (key : string)
    : option string :=
  entity_annotations e ≫= (fun m => m !! key).

(** *** Update strategies *)

(** The four update strategies, with the identity fields each one uses. *)
Inductive Strategy : Type :=
| ByUidAndGeneration (uid : string) (generation : Z)
| ByUid (uid : string)
| ByNameAndGeneration (name : string) (namespace : option string)
    (generation : Z)
| ByName (name : string) (namespace : option string).

(** The strategy a request selects: a field is present when it is truthy. *)
Definition strategy_of (request : DbEntityRequest) : option Strategy :=
  let md := default empty_metadata (metadata (entity request)) in
  match truthy_string (uid md), truthy_number (generation md) with
  | Some u, Some g => Some (ByUidAndGeneration u g)
  | Some u, None => Some (ByUid u)
  | None, _ =>
      match truthy_string (name md), truthy_number (generation md) with
      | Some n, Some g => Some (ByNameAndGeneration n (namespace md) g)
      | Some n, None => Some (ByName n (namespace md))
      | None, _ => None
      end
  end.

Definition named (n : string) (ns : option string) (r : DbEntitiesRow)
    : bool :=
  bool_decide (row_name r = Some n)
  && bool_decide (row_namespace r = truthy_string ns).

(** The rows of [rows] a strategy writes. *)
Definition targets (s : Strategy) (rows : list DbEntitiesRow)
    (r : DbEntitiesRow) : bool :=
  match s with
  | ByUidAndGeneration u g =>
      bool_decide (row_id r = u) && bool_decide (row_generation r = g)
  | ByUid u => bool_decide (row_id r = u)
  | ByNameAndGeneration n ns g =>
      named n ns r && bool_decide (row_generation r = g)
  | ByName n ns =>
      match List.filter (named n ns) rows with
      | [] => false
      | old :: _ =>
          bool_decide (row_id r = row_id old)
          && bool_decide (row_generation r = row_generation old)
      end
  end.

Definition uses_uid (s : Strategy) : bool :=
  match s with
  | ByUidAndGeneration _ _ | ByUid _ => true
  | ByNameAndGeneration _ _ _ | ByName _ _ => false
  end.

(** The generation a strategy writes over the generation [g]: the update
    by uid alone adds one in SQL, the other three add one in JavaScript. *)
Definition bumped (s : Strategy) (g : Z) : Z :=
  match s with
  | ByUid _ => g + 1
  | ByUidAndGeneration _ _ | ByNameAndGeneration _ _ _ | ByName _ _ =>
      js_add g 1
  end.

(** The row a strategy writes over [r]: every column of the request's
    row except the identity columns the strategy leaves alone, and the
    generation of [r] raised by the strategy. *)
Definition written (s : Strategy) (newRow r : DbEntitiesRow) : DbEntitiesRow :=
  if uses_uid s
  then Database.set_all_but_id newRow (fun r => bumped s (row_generation r)) r
  else Database.set_all_but_identity newRow
         (fun r => bumped s (row_generation r)) r.

Definition updated_rows (s : Strategy) (newRow : DbEntitiesRow)
    (rows : list DbEntitiesRow) : list DbEntitiesRow :=
  map (fun r => if targets s rows r then written s newRow r else r) rows.

(** The claim on stale generations, as the design document words it:
    a request that carries a uid and a generation below the stored one
    is refused with a conflict and changes nothing. *)
Definition stale_generation_always_conflicts : Prop :=
  ∀ (request : DbEntityRequest) (w : World) (md : Metadata) (u : string)
    (g : Z) (r : DbEntitiesRow),
    metadata (entity request) = Some md →
    uid md = Some u →
    generation md = Some g →
    NoDup (row_id <$> entities_of w) →
    r ∈ entities_of w →
    row_id r = u →
    g < row_generation r →
    ∃ e w', Database.updateEntity request w = (Throw e, w')
            ∧ is_conflict e = true ∧ tables w' = tables w.

(** *** Identifiers *)

(** What [uuidv4] promises: identifiers are never empty and never repeat. *)
Definition uuid_contract (w : World) : Prop :=
  (∀ i j, uuid_source w i = uuid_source w j → i = j)
  ∧ (∀ i, uuid_source w i ≠ "").

(** Every identifier in a table was drawn from [uuidv4] earlier. *)
Definition entity_ids_generated (w : World) : Prop :=
  ∀ r, r ∈ entities_of w →
    ∃ k, (k < uuid_count w)%nat ∧ row_id r = uuid_source w k.

Definition location_ids_generated (w : World) : Prop :=
  ∀ r, r ∈ locations_of w →
    ∃ k, (k < uuid_count w)%nat ∧ loc_id r = uuid_source w k.

(** The row [addEntity] inserts: the first identifier drawn makes the
    etag, the second one is the uid. *)
Definition inserted_row (request : DbEntityRequest) (w : World)
    : DbEntitiesRow :=
  {| row_id := uuid_source w (S (uuid_count w));
     row_location_id := truthy_string (locationId request);
     row_etag := strip_non_word (base64 (uuid_source w (uuid_count w)));
     row_generation := 1;
     row_api_version := apiVersion (entity request);
     row_kind := kind (entity request);
     row_name := request_name request;
     row_namespace := request_namespace request;
     row_metadata := serializeMetadata (metadata (entity request));
     row_spec := serializeSpec (spec (entity request)) |}.

(** Every stored metadata blob was written by [serializeMetadata], as
    [addEntity] and [updateEntity] write them. *)
Definition metadata_serialized (w : World) : Prop :=
  ∀ r, r ∈ entities_of w → ∃ md, row_metadata r = serializeMetadata md.

Definition has_target (target : string) (r : DbLocationsRow) : bool :=
  bool_decide (loc_target r = target).

(** *** Listing and the update log *)

(** The order a boolean comparison stands for. *)
Definition ordered_by {A} (leb : A -> A -> bool) (a b : A) : Prop :=
  leb a b = true.

Definition by_namespace (a b : DbEntitiesRow) : bool :=
  sql_leb (row_namespace a) (row_namespace b).

(** An event without its identifier and message. *)
Definition event_summary (e : DatabaseLocationUpdateLogEvent)
    : DatabaseLocationUpdateLogStatus * string * option string :=
  (ev_status e, ev_location_id e, ev_entity_name e).

Definition has_status (status : DatabaseLocationUpdateLogStatus)
    (entityName : option string) (event : DatabaseLocationUpdateLogEvent)
    : bool :=
  bool_decide (ev_status event = status)
  && bool_decide (ev_entity_name event = entityName).

Definition is_failure (event : DatabaseLocationUpdateLogEvent) : bool :=
  bool_decide (ev_status event = FAIL).

(** The refresh loop as it would run over [refreshSingleEntity]. *)
Definition refreshLocationsThroughSingleEntity
    : LocationReader -> DescriptorParser -> M unit :=
  DatabaseManager.refreshLocationsWith (fun dbc =>
    DatabaseManager.refreshSingleEntity (default "" (locationId dbc))
      (entity dbc)).

(** ** Example data *)

Definition example_uuid (k : nat) : string := "uuid-" ++ pretty k.

Definition example_world (rows : list DbEntitiesRow)
    (locations : list DbLocationsRow) (count : nat) : World :=
  {| tables := {| entities_table := rows; locations_table := locations;
                  location_update_log := [] |};
     uuid_source := example_uuid;
     uuid_count := count |}.

(** The entity of the test suite: [name: 'c'], [namespace: 'd']. *)
Definition example_metadata : Metadata :=
  {| uid := None; etag := None; generation := None;
     name := Some "c"; namespace := Some "d";
     labels := Some {[ "e" := "f" ]};
     annotations := Some {[ "g" := "h" ]} |}.

Definition example_entity : DescriptorEnvelope :=
  {| apiVersion := "a"; kind := "b"; metadata := Some example_metadata;
     spec := Some (JObject [("i", JString "j")]) |}.

Definition example_request : DbEntityRequest :=
  {| locationId := None; entity := example_entity |}.

(** The same entity, addressed by uid and generation. *)
Definition example_update (u : string) (g : Z) : DbEntityRequest :=
  {| locationId := None;
     entity :=
       {| apiVersion := "a"; kind := "new";
          metadata :=
            Some {| uid := Some u; etag := None; generation := Some g;
                    name := Some "c"; namespace := Some "d";
                    labels := None; annotations := None |};
          spec := None |} |}.

(** A stored row named [n] in namespace "d", at generation 1. *)
Definition example_row (id n : string) : DbEntitiesRow :=
  {| row_id := id; row_location_id := None; row_etag := "dXVpZA";
     row_generation := 1; row_api_version := "a"; row_kind := "b";
     row_name := Some n; row_namespace := Some "d";
     row_metadata :=
       Some {| uid := None; etag := None; generation := None;
               name := Some n; namespace := Some "d";
               labels := None; annotations := None |};
     row_spec := None |}.

Definition no_response : DbEntityResponse :=
  entityDbToResponse (example_row "" "").

(** A row whose stored metadata embeds a uid of its own. *)
Definition example_row_embedding_uid : DbEntitiesRow :=
  {| row_id := "uuid-0"; row_location_id := None; row_etag := "dXVpZA";
     row_generation := 1; row_api_version := "a"; row_kind := "b";
     row_name := Some "c"; row_namespace := None;
     row_metadata :=
       Some {| uid := Some "embedded"; etag := None; generation := None;
               name := Some "c"; namespace := None;
               labels := None; annotations := None |};
     row_spec := None |}.

(** A stored row with annotations, the entity it decodes to, and a
    freshly parsed entity for it. *)
Definition example_stored_row : DbEntitiesRow :=
  {| row_id := "uuid-0"; row_location_id := None; row_etag := "dXVpZA";
     row_generation := 3; row_api_version := "a"; row_kind := "b";
     row_name := Some "c"; row_namespace := Some "d";
     row_metadata :=
       Some {| uid := None; etag := None; generation := None;
               name := Some "c"; namespace := Some "d"; labels := None;
               annotations := Some {[ "g" := "h"; "kept" := "k" ]} |};
     row_spec := None |}.

Definition example_stored_entity : DescriptorEnvelope :=
  {| apiVersion := "a"; kind := "b";
     metadata :=
       Some {| uid := Some "uuid-0"; etag := Some "dXVpZA";
               generation := Some 3; name := Some "c"; namespace := Some "d";
               labels := None;
               annotations := Some {[ "g" := "h"; "kept" := "k" ]} |};
     spec := None |}.

Definition example_incoming_entity : DescriptorEnvelope :=
  {| apiVersion := "a"; kind := "b2";
     metadata :=
       Some {| uid := None; etag := None; generation := None;
               name := Some "c"; namespace := Some "d"; labels := None;
               annotations := Some {[ "g" := "new" ]} |};
     spec := None |}.

(** The refresh scenario: one location [{type: 'a', target: 'b'}], a
    reader that yields one error and one data item for it, and a parser
    that produces the entity named "c". *)
Definition example_location : DbLocationsRow :=
  {| loc_id := "uuid-0"; loc_type := "a"; loc_target := "b" |}.

Definition example_reader : LocationReader := fun type target =>
  if bool_decide (type = "a") && bool_decide (target = "b")
  then Ok [ErrorItem (Error "unreadable item"); DataItem "descriptor"]
  else Throw (Error "unknown location").

Definition example_parser : DescriptorParser := fun _ => Ok example_entity.

(** ** Vocabulary of the further properties *)

(** The uid a request carries, when it is truthy. *)
Definition request_uid (request : DbEntityRequest) : option string :=
  truthy_string (metadata (entity request) ≫= uid).

(** The row [entityRequestToDb] builds in the world [w]. *)
Definition request_row (request : DbEntityRequest) (w : World)
    : DbEntitiesRow :=
  {| row_id := "";
     row_location_id := truthy_string (locationId request);
     row_etag := strip_non_word (base64 (uuid_source w (uuid_count w)));
     row_generation := 1;
     row_api_version := apiVersion (entity request);
     row_kind := kind (entity request);
     row_name := request_name request;
     row_namespace := request_namespace request;
     row_metadata := serializeMetadata (metadata (entity request));
     row_spec := serializeSpec (spec (entity request)) |}.

(** The columns an update takes from the request whatever the strategy;
    the spec column is NULL when the spec of the request is falsy. *)
Definition carries_payload_of (request : DbEntityRequest) (r : DbEntitiesRow)
    : Prop :=
  row_api_version r = apiVersion (entity request)
  ∧ row_kind r = kind (entity request)
  ∧ row_spec r = truthy_json (spec (entity request))
  ∧ row_metadata r = serializeMetadata (metadata (entity request))
  ∧ row_location_id r = truthy_string (locationId request).

(** The message of the error for a request with neither uid nor name. *)
Definition neither_uid_nor_name : JsError :=
  InputError "Cannot update entity that has neither uid nor name".

(** The error [transaction] reports for a broken uniqueness constraint. *)
Definition rejected_as_conflicting : JsError :=
  ConflictError "Rejected due to a conflicting entity".

(** The strategies that answer with a row read back after the update. *)
Definition reads_back (s : Strategy) : bool :=
  match s with
  | ByUidAndGeneration _ _ => false
  | ByUid _ | ByNameAndGeneration _ _ _ | ByName _ _ => true
  end.

(** The ways [updateEntity] fails. *)
Definition update_failure (e : JsError) : Prop :=
  e = neither_uid_nor_name
  ∨ is_conflict e = true
  ∨ e = DriverError entities_unique_message.

(** The name and namespace columns of a row, the key of the entities. *)
Definition entity_key (r : DbEntitiesRow) : option string * option string :=
  (row_name r, row_namespace r).

(** The labels an entity or a response carries. *)
Definition entity_labels (e : DescriptorEnvelope)
    : option (gmap string string) :=
  metadata e ≫= labels.

(** The location row [addLocation] inserts in the world [w]. *)
Definition inserted_location (location : AddDatabaseLocation) (w : World)
    : DbLocationsRow :=
  {| loc_id := uuid_source w (uuid_count w);
     loc_type := add_type location;
     loc_target := add_target location |}.

Definition has_id (id : string) (r : DbLocationsRow) : bool :=
  bool_decide (loc_id r = id).

(** The error of [location] and [removeLocation] for an unknown id. *)
Definition no_location (id : string) : JsError :=
  NotFoundError ("Found no location with ID " ++ id).

Definition all_word_chars (s : string) : Prop :=
  Forall (fun c => is_word_char c = true) (list_ascii_of_string s).

(** An event without its identifier. *)
Definition event_detail (e : DatabaseLocationUpdateLogEvent)
    : DatabaseLocationUpdateLogStatus * string * option string
      * option string :=
  (ev_status e, ev_location_id e, ev_entity_name e, ev_message e).

(** [w'] is [w] with the events [details] appended to the update log;
    the entities and the locations are the same. *)
Definition logs_more (w w' : World)
    (details : list (DatabaseLocationUpdateLogStatus * string
                     * option string * option string)) : Prop :=
  entities_of w' = entities_of w
  ∧ locations_of w' = locations_of w
  ∧ event_detail <$> log_of w'
    = ((event_detail <$> log_of w) ++ details)%list.

(** The entity name a caught error is logged under. *)
Definition logged_name (e : JsError) : option string :=
  match e with
  | ParserError _ entityName => entityName
  | _ => None
  end.

(** An item the parser is never given, or does not accept. *)
Definition unparsable (parser : DescriptorParser) (item : ReaderItem)
    : bool :=
  match item with
  | ErrorItem _ => true
  | DataItem data =>
      match parser data with
      | Throw _ => true
      | Ok _ => false
      end
  end.

(** The events of the items of a location that do not parse. *)
Definition item_failures (parser : DescriptorParser)
    (location : DbLocationsRow) (item : ReaderItem)
    : list (DatabaseLocationUpdateLogStatus * string
            * option string * option string) :=
  match item with
  | ErrorItem _ => []
  | DataItem data =>
      match parser data with
      | Throw e =>
          [(FAIL, loc_id location, logged_name e, Some (error_message e))]
      | Ok _ => []
      end
  end.

(** A location of which no item parses, and the events its refresh
    leaves. *)
Definition nothing_parses (reader : LocationReader)
    (parser : DescriptorParser) (location : DbLocationsRow) : Prop :=
  match reader (loc_type location) (loc_target location) with
  | Throw _ => True
  | Ok items => Forall (fun item => unparsable parser item = true) items
  end.

Definition location_failures (reader : LocationReader)
    (parser : DescriptorParser) (location : DbLocationsRow)
    : list (DatabaseLocationUpdateLogStatus * string
            * option string * option string) :=
  match reader (loc_type location) (loc_target location) with
  | Throw e => [(FAIL, loc_id location, None, Some (error_message e))]
  | Ok items =>
      (flat_map (item_failures parser location) items
       ++ [(SUCCESS, loc_id location, None, None)])%list
  end.

(** A reader that fails, and a parser that rejects with an entity name. *)
Definition example_failing_reader : LocationReader := fun type target =>
  if bool_decide (target = "b")
  then Ok [ErrorItem (Error "unreadable item"); DataItem "descriptor"]
  else Throw (Error "unreachable").

Definition example_rejecting_parser : DescriptorParser := fun _ =>
  Throw (ParserError "malformed" (Some "c")).

(** The body of the loop over the items of one location. *)
Definition item_body (persist : DbEntityRequest -> M unit)
    (parser : DescriptorParser) (location : DbLocationsRow)
    (readerItem : ReaderItem) : M unit :=
  match readerItem with
  | ErrorItem _ => ret tt
  | DataItem data =>
      try_catch
        (bind (lift (parser data)) (fun entity =>
           bind (persist {| locationId := Some (loc_id location);
                            entity := entity |})
             (fun _ =>
                match metadata entity with
                | None =>
                    throw (TypeError
                      "Cannot read property 'name' of undefined")
                | Some md =>
                    DatabaseManager.logUpdateSuccess (loc_id location)
                      (name md)
                end)))
        (fun error =>
           DatabaseManager.logUpdateFailure (loc_id location) (Some error)
             match error with
             | ParserError _ entityName => entityName
             | _ => None
             end)
  end.

(** The body of the loop over the locations. *)
Definition location_body (persist : DbEntityRequest -> M unit)
    (reader : LocationReader) (parser : DescriptorParser)
    (location : DbLocationsRow) : M unit :=
  try_catch
    (bind (lift (reader (loc_type location) (loc_target location)))
       (fun readerOutput =>
          bind (for_of readerOutput (item_body persist parser location))
            (fun _ => DatabaseManager.logUpdateSuccess (loc_id location)
                        None)))
    (fun error =>
       DatabaseManager.logUpdateFailure (loc_id location) (Some error) None).

(** The error of [refreshSingleEntity] for an entity without name. *)
Definition nameless : JsError :=
  Error "Entities without names are not yet supported".

(** The request [refreshSingleEntity] stores an entity with. *)
Definition refresh_request (locationId : string)
    (entity : DescriptorEnvelope) : DbEntityRequest :=
  {| locationId := Some locationId; entity := entity |}.

(** The stored row [r] after the refresh of its entity by [incoming]:
    its uid, name and namespace stay, its generation is raised by one,
    its spec is the incoming one (NULL when that is falsy), and its
    stored metadata comes from the merge of the stored entity and the
    incoming one. *)
Definition refreshed_row (locationId : string)
    (incoming : DescriptorEnvelope) (w : World) (r : DbEntitiesRow)
    : DbEntitiesRow :=
  {| row_id := row_id r;
     row_location_id := truthy_string (Some locationId);
     row_etag := strip_non_word (base64 (uuid_source w (uuid_count w)));
     row_generation := row_generation r + 1;
     row_api_version := apiVersion incoming;
     row_kind := kind incoming;
     row_name := row_name r;
     row_namespace := row_namespace r;
     row_metadata :=
       serializeMetadata
         (metadata
            (DatabaseManager.mergeEntities
               (resp_entity (entityDbToResponse r)) incoming));
     row_spec := truthy_json (spec incoming) |}.

(** The stored metadata of a row embeds neither uid nor generation. *)
Definition plain_blob (r : DbEntitiesRow) : Prop :=
  row_metadata r ≫= uid = None ∧ row_metadata r ≫= generation = None.

(** * Properties *)

(** ** The etag encoding on known values *)

Example base64_abc : base64 "abc" = "YWJj".
Proof. reflexivity. Qed.

Example base64_padding : base64 "a" = "YQ==" /\ base64 "ab" = "YWI=".
Proof. split; reflexivity. Qed.

Example strip_padding : strip_non_word (base64 "a?>") = "YT8".
Proof. reflexivity. Qed.

(** ** Numbers and falsy specs on known values *)

Example to_double_rounds_to_even :
  to_double (2 ^ 53 + 1) = 2 ^ 53
  ∧ to_double (2 ^ 53 + 3) = 2 ^ 53 + 4
  ∧ to_double (- (2 ^ 53 + 1)) = - 2 ^ 53
  ∧ to_double (2 ^ 53 - 1) = 2 ^ 53 - 1.
Proof. by vm_compute. Qed.

Example serializeSpec_falsy :
  serializeSpec None = None
  ∧ serializeSpec (Some JNull) = None
  ∧ serializeSpec (Some (JBool false)) = None
  ∧ serializeSpec (Some (JNumber 0)) = None
  ∧ serializeSpec (Some (JString "")) = None.
Proof. by repeat split. Qed.

Example serializeSpec_truthy_values :
  serializeSpec (Some (JObject [])) = Some (JObject [])
  ∧ serializeSpec (Some (JArray [])) = Some (JArray [])
  ∧ serializeSpec (Some (JString "0")) = Some (JString "0").
Proof. by repeat split. Qed.

(** ** The statements on the tables *)

Lemma set_tables_same (w : World) : set_tables (tables w) w = w.
Proof. by destruct w. Qed.

Lemma with_entities_same (t : Tables) : with_entities t (entities_table t) = t.
Proof. by destruct t. Qed.

Lemma filter_none {A} (cond : A → bool) (l : list A) :
  Forall (fun x => cond x = false) l → List.filter cond l = [].
Proof. induction 1 as [|x l Hx _ IH]; simpl; [done|]. by rewrite Hx. Qed.

Lemma filter_some {A} (cond : A → bool) (l : list A) (x : A) (l' : list A) :
  List.filter cond l = x :: l' → x ∈ l ∧ cond x = true.
Proof.
  intros Hf. rewrite list_elem_of_In. apply filter_In. rewrite Hf. by left.
Qed.

Lemma update_violation_unwritten (l : list (bool * DbEntitiesRow)) :
  Forall (fun x => fst x = false) l → update_violation l = false.
Proof.
  induction 1 as [|[written r] l Hx Hl IH]; [done|].
  simpl in *. subst written. rewrite IH, orb_false_r.
  apply not_true_is_false. rewrite existsb_exists.
  intros ([written' r'] & Hin & Hb). simpl in Hb.
  rewrite Forall_forall in Hl. apply list_elem_of_In, Hl in Hin.
  simpl in Hin. by subst written'.
Qed.

Lemma update_entities_run cond set (w : World) :
  update_entities cond set w =
  if update_violation
       (map (fun r => (cond r, if cond r then set r else r)) (entities_of w))
  then (Throw (DriverError entities_unique_message), w)
  else (Ok (length (List.filter cond (entities_of w))),
        set_tables
          (with_entities (tables w)
             (map (fun r => if cond r then set r else r) (entities_of w))) w).
Proof.
  unfold update_entities, bind, get_tables, entities_of.
  destruct (update_violation _); [done|].
  unfold put_tables, ret. by rewrite map_map.
Qed.

Lemma update_entities_none cond set (w : World) :
  Forall (fun r => cond r = false) (entities_of w) →
  update_entities cond set w = (Ok O, w).
Proof.
  intros Hnone. rewrite update_entities_run.
  rewrite update_violation_unwritten.
  - rewrite filter_none by done. simpl. f_equal.
    replace (map _ (entities_of w)) with (entities_of w).
    + unfold entities_of. by rewrite with_entities_same, set_tables_same.
    + induction Hnone as [|r l Hr _ IH]; simpl; [done|]. by rewrite Hr, <- IH.
  - rewrite Forall_map. eapply Forall_impl; [exact Hnone|]. done.
Qed.

Lemma update_entities_ok cond set (w w' : World) (n : nat) :
  update_entities cond set w = (Ok n, w') →
  n = length (List.filter cond (entities_of w))
  ∧ w' = set_tables
           (with_entities (tables w)
              (map (fun r => if cond r then set r else r) (entities_of w))) w.
Proof.
  rewrite update_entities_run. destruct (update_violation _); [done|].
  by intros [= <- <-].
Qed.

Lemma update_entities_throw cond set (w w' : World) (e : JsError) :
  update_entities cond set w = (Throw e, w') →
  e = DriverError entities_unique_message ∧ w' = w.
Proof.
  rewrite update_entities_run. destruct (update_violation _); [|done].
  by intros [= <- <-].
Qed.

Lemma select_entities_run cond (w : World) :
  select_entities cond w = (Ok (List.filter cond (entities_of w)), w).
Proof. done. Qed.

Lemma entityRequestToDb_run request (w : World) :
  ∃ newRow, entityRequestToDb request w = (Ok newRow, drawn w)
    ∧ row_id newRow = ""
    ∧ row_generation newRow = 1
    ∧ row_name newRow = request_name request
    ∧ row_namespace newRow = request_namespace request
    ∧ row_metadata newRow = serializeMetadata (metadata (entity request)).
Proof. eexists. split; [reflexivity|]. done. Qed.

(** ** Shape of a successful update *)

Lemma filter_length_S {A} (cond : A → bool) (l : list A) (n : nat) :
  length (List.filter cond l) = S n → Exists (fun x => cond x = true) l.
Proof.
  destruct (List.filter cond l) as [|x l'] eqn:Hf; [done|]. intros _.
  apply filter_some in Hf as [Hin Hx]. apply Exists_exists. eauto.
Qed.

Lemma update_then {A} cond set (e : JsError) (k : M A) (w w' : World) (a : A) :
  bind (update_entities cond set)
    (fun rows => match rows with O => throw e | S _ => k end) w = (Ok a, w') →
  Exists (fun r => cond r = true) (entities_of w)
  ∧ k (set_tables
         (with_entities (tables w)
            (map (fun r => if cond r then set r else r) (entities_of w))) w)
    = (Ok a, w').
Proof.
  unfold bind. destruct (update_entities cond set w) as [[n|e'] w1] eqn:Hu;
    [|done].
  apply update_entities_ok in Hu as [-> ->].
  destruct (length _) as [|n] eqn:Hn; [done|].
  intros Hk. split; [|done]. by eapply filter_length_S.
Qed.

Lemma read_back cond (e : JsError) (w w' : World) (resp : DbEntityResponse) :
  bind (select_entities cond)
    (fun result =>
       match result with
       | [] => throw e
       | row :: _ => ret (entityDbToResponse row)
       end) w = (Ok resp, w') →
  w' = w
  ∧ ∃ row, row ∈ entities_of w ∧ cond row = true
           ∧ resp = entityDbToResponse row.
Proof.
  unfold bind. rewrite select_entities_run.
  destruct (List.filter cond (entities_of w)) as [|row rest] eqn:Hf; [done|].
  intros [= <- <-]. split; [done|]. exists row.
  apply filter_some in Hf as [? ?]. done.
Qed.

Ltac undraw :=
  change (entities_of (drawn ?w)) with (entities_of w) in *;
  change (tables (drawn ?w)) with (tables w) in *.

Lemma updateEntity_ok request (w w' : World) (resp : DbEntityResponse) :
  Database.updateEntity request w = (Ok resp, w') →
  ∃ s newRow,
    strategy_of request = Some s
    ∧ entityRequestToDb request w = (Ok newRow, drawn w)
    ∧ Exists (fun r => targets s (entities_of w) r = true) (entities_of w)
    ∧ w' = set_tables
             (with_entities (tables w) (updated_rows s newRow (entities_of w)))
             (drawn w)
    ∧ match s with
      | ByUidAndGeneration _ _ => resp = entityDbToResponse newRow
      | _ => ∃ row, row ∈ entities_of w' ∧ resp = entityDbToResponse row
      end.
Proof.
  destruct (entityRequestToDb_run request w) as (newRow & HnewRow & _).
  unfold Database.updateEntity, strategy_of, bind at 1. rewrite HnewRow.
  set (md := default empty_metadata (metadata (entity request))).
  destruct (truthy_string (uid md)) as [u|];
    [destruct (truthy_number (generation md)) as [g|]
    |destruct (truthy_string (name md)) as [n|];
      [destruct (truthy_number (generation md)) as [g|]|]].
  - (* uid and generation *)
    unfold Database.update_by_uid_with_generation_check. intros H.
    apply update_then in H as [Hex H]. injection H as <- <-.
    exists (ByUidAndGeneration u g), newRow. undraw.
    split_and!; try done. f_equal. f_equal. unfold updated_rows.
    apply map_ext. intros r. simpl.
    destruct (bool_decide (row_id r = u)); [|done].
    simpl. case_bool_decide; [|done]. unfold written. simpl.
    unfold Database.set_all_but_id. by subst g.
  - (* uid only *)
    unfold Database.update_by_uid_unconditionally. intros H.
    apply update_then in H as [Hex H].
    apply read_back in H as [-> (row & Hin & _ & ->)].
    exists (ByUid u), newRow. undraw.
    split_and!; try done. by exists row.
  - (* name and generation *)
    unfold Database.update_by_name_with_generation_check. intros H.
    apply update_then in H as [Hex H].
    apply read_back in H as [-> (row & Hin & _ & ->)].
    exists (ByNameAndGeneration n (namespace md) g), newRow. undraw.
    assert (Hsame : map
      (fun r => if named n (namespace md) r
                   && bool_decide (row_generation r = g)
                then Database.set_all_but_identity newRow
                       (fun _ => js_add g 1) r
                else r) (entities_of w)
      = updated_rows (ByNameAndGeneration n (namespace md) g) newRow
          (entities_of w)).
    { unfold updated_rows. apply map_ext. intros r. simpl.
      destruct (named n (namespace md) r); [|done]. simpl.
      case_bool_decide; [|done]. unfold written. simpl.
      unfold Database.set_all_but_identity. by subst g. }
    unfold named in Hsame at 1. rewrite Hsame in *.
    split_and!; try done. by exists row.
  - (* name only *)
    unfold Database.update_by_name_unconditionally, bind at 1.
    rewrite select_entities_run. undraw.
    destruct (List.filter _ (entities_of w)) as [|old rest] eqn:Hold; [done|].
    intros H.
    apply update_then in H as [Hex H].
    apply read_back in H as [-> (row & Hin & _ & ->)].
    exists (ByName n (namespace md)), newRow. undraw.
    assert (Htargets : ∀ r,
      targets (ByName n (namespace md)) (entities_of w) r
      = bool_decide (row_id r = row_id old)
        && bool_decide (row_generation r = row_generation old)).
    { intros r. simpl. unfold named. by rewrite Hold. }
    assert (Hsame : map
      (fun r => if bool_decide (row_id r = row_id old)
                   && bool_decide (row_generation r = row_generation old)
                then Database.set_all_but_identity newRow
                       (fun _ => js_add (row_generation old) 1) r
                else r) (entities_of w)
      = updated_rows (ByName n (namespace md)) newRow (entities_of w)).
    { unfold updated_rows. apply map_ext. intros r. rewrite Htargets.
      destruct (bool_decide (row_id r = row_id old)); [|done].
      simpl. case_bool_decide as Hg; [|done]. unfold written. simpl.
      unfold Database.set_all_but_identity. by rewrite Hg. }
    rewrite Hsame in *.
    split_and!; try done; [|by exists row].
    eapply Exists_impl; [exact Hex|]. intros r Hr. by rewrite Htargets.
  - done.
Qed.

Lemma Forall2_map_same {A B} (P : A → B → Prop) (f : A → B) (l : list A) :
  (∀ x, P x (f x)) → Forall2 P l (map f l).
Proof. intros Hf. induction l; simpl; constructor; auto. Qed.

Lemma row_of_id (rows : list DbEntitiesRow) (r r' : DbEntitiesRow) :
  NoDup (row_id <$> rows) → r ∈ rows → r' ∈ rows → row_id r = row_id r' →
  r = r'.
Proof.
  induction rows as [|x rows IH]; [by intros _ ?%elem_of_nil|].
  rewrite fmap_cons, NoDup_cons.
  intros [Hx Hnd] [->|Hr]%elem_of_cons [->|Hr']%elem_of_cons Hid; auto.
  - destruct Hx. rewrite Hid. by apply list_elem_of_fmap_2.
  - destruct Hx. rewrite <- Hid. by apply list_elem_of_fmap_2.
Qed.

Lemma written_generation (s : Strategy) (newRow r : DbEntitiesRow) :
  row_generation (written s newRow r) = bumped s (row_generation r).
Proof. unfold written. by destruct (uses_uid s). Qed.

Lemma js_add_one_safe (g : Z) : safe_integer g → js_add g 1 = g + 1.
Proof.
  unfold safe_integer, js_add, to_double. intros Hg.
  destruct (Z.ltb_spec (Z.abs (g + 1)) (2 ^ 53)) as [|Hlimit]; [done|].
  assert (g + 1 = 2 ^ 53) as -> by lia. by vm_compute.
Qed.

Lemma bumped_safe (s : Strategy) (g : Z) :
  safe_integer g → bumped s g = g + 1.
Proof. intros Hg. destruct s; simpl; auto using js_add_one_safe. Qed.

Lemma written_id (s : Strategy) (newRow r : DbEntitiesRow) :
  row_id (written s newRow r) = row_id r.
Proof. unfold written. by destruct (uses_uid s). Qed.

(** ** Generation counter *)

(** Beyond the safe integers the addition of JavaScript rounds: at
    [2^53] adding one changes nothing. *)
Example js_add_one_beyond_safe : js_add (2 ^ 53) 1 = 2 ^ 53.
Proof. by vm_compute. Qed.

(** C1. A successful [updateEntity] selects one of the four strategies,
    writes at least one stored row, and every row it writes keeps its uid
    and has its generation raised by exactly one, for every generation
    that is a safe integer (below [2^53] in magnitude, where adding one
    to a JavaScript number is exact); all other rows are unchanged. *)
Theorem updateEntity_generation_plus_one request (w w' : World)
    (resp : DbEntityResponse) :
  Database.updateEntity request w = (Ok resp, w') →
  ∃ s, strategy_of request = Some s
    ∧ Exists (fun r => targets s (entities_of w) r = true) (entities_of w)
    ∧ Forall2
        (fun r r' =>
           row_id r' = row_id r
           ∧ if targets s (entities_of w) r
             then safe_integer (row_generation r) →
                  row_generation r' = row_generation r + 1
             else r' = r)
        (entities_of w) (entities_of w').
Proof.
  intros (s & newRow & Hs & _ & Hex & -> & _)%updateEntity_ok.
  exists s. split_and!; try done.
  apply Forall2_map_same. intros r.
  destruct (targets s (entities_of w) r); [|done].
  rewrite written_generation, written_id. split; [done|].
  apply bumped_safe.
Qed.

Lemma example_uuid_contract rows locations count :
  uuid_contract (example_world rows locations count).
Proof.
  split; simpl.
  - intros i j [= H]. change (pretty i = pretty j) in H.
    by apply (inj (@pretty nat _)) in H.
  - done.
Qed.

Lemma updateEntity_generation_plus_one_witness :
  let w := example_world [example_row "uuid-0" "c"] [] 1 in
  let run := Database.updateEntity (example_update "uuid-0" 1) w in
  run = (Ok (returned no_response run), snd run)
  ∧ ∃ s, strategy_of (example_update "uuid-0" 1) = Some s
      ∧ Exists (fun r => targets s (entities_of w) r = true) (entities_of w)
      ∧ Forall2
          (fun r r' =>
             row_id r' = row_id r
             ∧ if targets s (entities_of w) r
               then safe_integer (row_generation r) →
                    row_generation r' = row_generation r + 1
               else r' = r)
          (entities_of w) (entities_of (snd run)).
Proof.
  intros w run.
  assert (H : run = (Ok (returned no_response run), snd run))
    by (vm_compute; reflexivity).
  split; [exact H|]. exact (updateEntity_generation_plus_one _ _ _ _ H).
Defined.

(** ** Stale generations *)

(** C2, as worded, fails: a request carrying the generation [0] is
    treated as carrying none, and is applied by uid unconditionally. *)
Lemma stale_generation_zero_is_applied : ¬ stale_generation_always_conflicts.
Proof.
  intros Hclaim.
  destruct (Hclaim (example_update "uuid-0" 0)
              (example_world [example_row "uuid-0" "c"] [] 1)
              _ "uuid-0" 0 (example_row "uuid-0" "c") eq_refl eq_refl eq_refl)
    as (e & w' & Hrun & _).
  - apply NoDup_singleton.
  - apply list_elem_of_singleton. reflexivity.
  - reflexivity.
  - reflexivity.
  - vm_compute in Hrun. discriminate Hrun.
Qed.

(** C2, amended. A request that carries a non-empty uid and a non-zero
    generation below the generation of the stored row with that uid is
    refused with a conflict, and no table changes. *)
Theorem stale_generation_conflicts (request : DbEntityRequest) (w : World)
    (md : Metadata) (u : string) (g : Z) (r : DbEntitiesRow) :
  metadata (entity request) = Some md →
  uid md = Some u → u ≠ "" →
  generation md = Some g → g ≠ 0 →
  NoDup (row_id <$> entities_of w) →
  r ∈ entities_of w →
  row_id r = u →
  g < row_generation r →
  ∃ e w', Database.updateEntity request w = (Throw e, w')
          ∧ is_conflict e = true ∧ tables w' = tables w.
Proof.
  intros Hmd Hu Hne Hg Hg0 Hnd Hr Hid Hlt.
  destruct (entityRequestToDb_run request w) as (newRow & HnewRow & _).
  unfold Database.updateEntity, bind. rewrite HnewRow, Hmd. simpl.
  rewrite Hu, Hg.
  assert (truthy_string (Some u) = Some u) as -> by by destruct u.
  assert (truthy_number (Some g) = Some g) as -> by by destruct g.
  unfold Database.update_by_uid_with_generation_check, bind.
  rewrite update_entities_none.
  - eexists _, _. split; [reflexivity|]. done.
  - undraw. apply Forall_forall. intros r' Hr'.
    apply andb_false_iff. rewrite !bool_decide_eq_false.
    destruct (decide (row_id r' = u)) as [Hid'|]; [right|by left].
    assert (r = r') as <- by (eapply row_of_id; eauto; congruence). lia.
Qed.

Lemma stale_generation_conflicts_witness :
  let w := example_world
             [written (ByUid "uuid-0") (example_row "" "c")
                (example_row "uuid-0" "c")] [] 1 in
  ∃ e w', Database.updateEntity (example_update "uuid-0" 1) w = (Throw e, w')
          ∧ is_conflict e = true ∧ tables w' = tables w.
Proof.
  intros w.
  apply (stale_generation_conflicts (example_update "uuid-0" 1) w _ "uuid-0" 1
           (written (ByUid "uuid-0") (example_row "" "c")
              (example_row "uuid-0" "c")) eq_refl eq_refl).
  - discriminate.
  - reflexivity.
  - discriminate.
  - apply NoDup_singleton.
  - apply list_elem_of_singleton. reflexivity.
  - reflexivity.
  - vm_compute. reflexivity.
Defined.

(** ** Response of an update by uid and generation *)

Lemma update_by_uid_and_generation_response request (w w' : World)
    (resp : DbEntityResponse) (u : string) (g : Z) :
  strategy_of request = Some (ByUidAndGeneration u g) →
  Database.updateEntity request w = (Ok resp, w') →
  response_uid resp = Some "" ∧ response_generation resp = Some 1.
Proof.
  intros Hs (s & newRow & Hs' & HnewRow & _ & _ & Hresp)%updateEntity_ok.
  rewrite Hs in Hs'. injection Hs' as <-. subst resp.
  destruct (entityRequestToDb_run request w)
    as (newRow' & HnewRow' & Hid & Hgen & _ & _ & Hmd).
  rewrite HnewRow in HnewRow'. injection HnewRow' as <-.
  unfold response_uid, response_generation, entityDbToResponse. simpl.
  rewrite Hmd, Hid, Hgen.
  by destruct (metadata (entity request)).
Qed.

(** C3, where the code departs from it. After a successful update by uid
    "uuid-0" and generation 1 the stored row has that uid and generation
    2, but the response is decoded from the request's own row: its uid is
    empty and its generation is 1. *)
Theorem update_by_uid_and_generation_returns_request_row :
  let w := example_world [example_row "uuid-0" "c"] [] 1 in
  let run := Database.updateEntity (example_update "uuid-0" 1) w in
  strategy_of (example_update "uuid-0" 1)
    = Some (ByUidAndGeneration "uuid-0" 1)
  ∧ run = (Ok (returned no_response run), snd run)
  ∧ (fun r => (row_id r, row_generation r)) <$> entities_of (snd run)
    = [("uuid-0", 2)]
  ∧ response_uid (returned no_response run) = Some ""
  ∧ response_generation (returned no_response run) = Some 1.
Proof. vm_compute. done. Qed.

(** ** Name and namespace columns *)

(** C10. A successful update that found its row by name leaves the name
    and namespace columns of the rows it writes as they were; one that
    found its row by uid sets them to the values of the request. Rows
    that are not written are unchanged. *)
Theorem updateEntity_name_columns request (w w' : World)
    (resp : DbEntityResponse) :
  Database.updateEntity request w = (Ok resp, w') →
  ∃ s, strategy_of request = Some s
    ∧ Forall2
        (fun r r' =>
           if targets s (entities_of w) r
           then if uses_uid s
                then row_name r' = request_name request
                     ∧ row_namespace r' = request_namespace request
                else row_name r' = row_name r
                     ∧ row_namespace r' = row_namespace r
           else r' = r)
        (entities_of w) (entities_of w').
Proof.
  intros (s & newRow & Hs & HnewRow & _ & -> & _)%updateEntity_ok.
  destruct (entityRequestToDb_run request w)
    as (newRow' & HnewRow' & _ & _ & Hname & Hnamespace & _).
  rewrite HnewRow in HnewRow'. injection HnewRow' as <-.
  exists s. split; [done|]. apply Forall2_map_same. intros r.
  destruct (targets s (entities_of w) r); [|done].
  unfold written. destruct (uses_uid s); simpl; by rewrite ?Hname, ?Hnamespace.
Qed.

Lemma updateEntity_name_columns_witness :
  let w := example_world [example_row "uuid-0" "old"] [] 1 in
  let request := example_update "uuid-0" 1 in
  let run := Database.updateEntity request w in
  run = (Ok (returned no_response run), snd run)
  ∧ ∃ s, strategy_of request = Some s
      ∧ Forall2
          (fun r r' =>
             if targets s (entities_of w) r
             then if uses_uid s
                  then row_name r' = request_name request
                       ∧ row_namespace r' = request_namespace request
                  else row_name r' = row_name r
                       ∧ row_namespace r' = row_namespace r
             else r' = r)
          (entities_of w) (entities_of (snd run)).
Proof.
  intros w request run.
  assert (H : run = (Ok (returned no_response run), snd run))
    by (vm_compute; reflexivity).
  split; [exact H|]. exact (updateEntity_name_columns _ _ _ _ H).
Defined.

(** ** Row codec *)

Lemma serializeMetadata_strips (md : option Metadata) (blob : Metadata) :
  serializeMetadata md = Some blob →
  uid blob = None ∧ etag blob = None ∧ generation blob = None.
Proof. destruct md; [|done]. by intros [= <-]. Qed.

(** C6, as worded, fails: a uid embedded in the stored metadata wins over
    the identity column. *)
Lemma embedded_uid_wins :
  response_uid (entityDbToResponse example_row_embedding_uid)
  ≠ Some (row_id example_row_embedding_uid).
Proof. vm_compute. discriminate. Qed.

(** The rows that [entityRequestToDb] writes embed none of the three, so
    they decode to their own columns. *)
Lemma entityDbToResponse_of_written (row : DbEntitiesRow)
    (md : option Metadata) :
  row_metadata row = serializeMetadata md →
  response_uid (entityDbToResponse row) = Some (row_id row)
  ∧ response_etag (entityDbToResponse row) = Some (row_etag row)
  ∧ response_generation (entityDbToResponse row) = Some (row_generation row).
Proof.
  intros Hmd.
  unfold response_uid, response_etag, response_generation, entityDbToResponse.
  simpl. rewrite Hmd. by destruct md.
Qed.

(** C6, amended. In a store whose metadata blobs were all written by
    [serializeMetadata], as [addEntity] and [updateEntity] write them,
    every stored row decodes to an entity whose uid, etag and generation
    are the identity, etag and generation columns of the row. *)
Theorem stored_row_decodes_to_its_columns (w : World) (row : DbEntitiesRow) :
  metadata_serialized w →
  row ∈ entities_of w →
  response_uid (entityDbToResponse row) = Some (row_id row)
  ∧ response_etag (entityDbToResponse row) = Some (row_etag row)
  ∧ response_generation (entityDbToResponse row) = Some (row_generation row).
Proof.
  intros Hstore Hrow. destruct (Hstore row Hrow) as [md Hmd].
  by apply (entityDbToResponse_of_written row md).
Qed.

Lemma example_metadata_serialized (id n : string) (count : nat) :
  metadata_serialized (example_world [example_row id n] [] count).
Proof.
  intros r ->%list_elem_of_singleton.
  by exists (row_metadata (example_row id n)).
Qed.

Lemma stored_row_decodes_to_its_columns_witness :
  let w := example_world [example_row "uuid-0" "c"] [] 1 in
  let resp := entityDbToResponse (example_row "uuid-0" "c") in
  metadata_serialized w
  ∧ example_row "uuid-0" "c" ∈ entities_of w
  ∧ response_uid resp = Some "uuid-0"
  ∧ response_etag resp = Some "dXVpZA"
  ∧ response_generation resp = Some 1.
Proof.
  intros w resp.
  assert (Hstore : metadata_serialized w)
    by apply example_metadata_serialized.
  assert (Hrow : example_row "uuid-0" "c" ∈ entities_of w)
    by (apply list_elem_of_singleton; reflexivity).
  split; [exact Hstore|]. split; [exact Hrow|].
  exact (stored_row_decodes_to_its_columns w _ Hstore Hrow).
Defined.

(** ** Entity merger *)

(** An entity decoded from a stored row always carries a uid and a
    generation: the bases [refreshSingleEntity] hands to [mergeEntities]
    are such entities. *)
Lemma decoded_entity_has_identity (row : DbEntitiesRow) :
  is_Some (entity_uid (resp_entity (entityDbToResponse row)))
  ∧ is_Some (entity_generation (resp_entity (entityDbToResponse row))).
Proof.
  unfold entity_uid, entity_generation, entityDbToResponse. simpl.
  destruct (row_metadata row) as [blob|]; simpl; [|eauto].
  destruct (uid blob), (generation blob); simpl; eauto.
Qed.

Example example_stored_row_decoded :
  resp_entity (entityDbToResponse example_stored_row) = example_stored_entity.
Proof. reflexivity. Qed.

(** C4. For a base that carries a uid and a generation, as every entity
    read from the store does, the merged entity has the uid and the
    generation of the base; an annotation key that both entities have
    gets the incoming value, and one that only the base has keeps the
    value of the base. *)
Theorem mergeEntities_preserves_identity
    (base incoming : DescriptorEnvelope) :
  is_Some (entity_uid base) →
  is_Some (entity_generation base) →
  let result := DatabaseManager.mergeEntities base incoming in
  entity_uid result = entity_uid base
  ∧ entity_generation result = entity_generation base
  ∧ (∀ (key b i : string),
       annotation base key = Some b → annotation incoming key = Some i →
       annotation result key = Some i)
  ∧ (∀ (key b : string),
       annotation base key = Some b → annotation incoming key = None →
       annotation result key = Some b).
Proof.
  unfold DatabaseManager.mergeEntities, annotation, entity_annotations,
    entity_uid, entity_generation.
  intros [u Hu] [g Hg]. rewrite Hu, Hg.
  destruct (metadata base ≫= annotations) as [base_annotations|] eqn:Hann;
    simpl; split_and!; try done.
  - intros key b i Hb. destruct (metadata incoming) as [md|]; simpl; [|done].
    destruct (annotations md) as [ann|]; simpl; [|done].
    rewrite lookup_union. intros ->. by destruct (base_annotations !! key).
  - intros key b Hb. destruct (metadata incoming) as [md|]; simpl; [|done].
    destruct (annotations md) as [ann|]; simpl; [|done].
    rewrite lookup_union. intros ->. by rewrite Hb.
Qed.

Lemma mergeEntities_preserves_identity_witness :
  let base := resp_entity (entityDbToResponse example_stored_row) in
  let result := DatabaseManager.mergeEntities base example_incoming_entity in
  is_Some (entity_uid base)
  ∧ is_Some (entity_generation base)
  ∧ entity_uid result = Some "uuid-0"
  ∧ entity_generation result = Some 3
  ∧ annotation result "g" = Some "new"
  ∧ annotation result "kept" = Some "k".
Proof.
  intros base result.
  destruct (decoded_entity_has_identity example_stored_row) as [Hu Hg].
  destruct (mergeEntities_preserves_identity base example_incoming_entity
              Hu Hg) as (Huid & Hgen & Hboth & Hbase).
  split; [exact Hu|]. split; [exact Hg|].
  split; [exact Huid|]. split; [exact Hgen|].
  split; [exact (Hboth "g" "h" "new" eq_refl eq_refl)
         |exact (Hbase "kept" "k" eq_refl eq_refl)].
Defined.

(** ** Refresh loop *)

(** C5, where the code departs from it. In the scenario of one location,
    one unreadable item and one item that parses to the entity "c", the
    loop calls [database.addOrUpdateEntity], which [Database] does not
    have: the entity is not stored, one FAIL event carries the resulting
    error, and only the SUCCESS event of the location follows. *)
Theorem refreshLocations_scenario_logs_failure :
  let w := example_world [] [example_location] 1 in
  let run :=
    DatabaseManager.refreshLocations example_reader example_parser w in
  fst run = Ok tt
  ∧ log_of (snd run)
    = [ {| ev_id := "uuid-1"; ev_status := FAIL; ev_location_id := "uuid-0";
           ev_entity_name := None;
           ev_message :=
             Some "database.addOrUpdateEntity is not a function" |};
        {| ev_id := "uuid-2"; ev_status := SUCCESS;
           ev_location_id := "uuid-0"; ev_entity_name := None;
           ev_message := None |} ]
  ∧ length (List.filter (has_status SUCCESS (Some "c")) (log_of (snd run)))
    = 0%nat
  ∧ length (List.filter is_failure (log_of (snd run))) = 1%nat
  ∧ entities_of (snd run) = [].
Proof. vm_compute. done. Qed.

(** The same scenario over [refreshSingleEntity], the operation that adds
    or updates one entity: the entity is stored, one SUCCESS event names
    it, one SUCCESS event stands for the location, and nothing fails. *)
Lemma refresh_through_single_entity_scenario :
  let w := example_world [] [example_location] 1 in
  let run :=
    refreshLocationsThroughSingleEntity example_reader example_parser w in
  fst run = Ok tt
  ∧ event_summary <$> log_of (snd run)
    = [ (SUCCESS, "uuid-0", Some "c"); (SUCCESS, "uuid-0", None) ]
  ∧ length (List.filter is_failure (log_of (snd run))) = 0%nat
  ∧ row_name <$> entities_of (snd run) = [Some "c"].
Proof. vm_compute. done. Qed.

(** Whatever the tables hold and whatever the parser returns, an item
    that parses is never stored by [refreshLocations], and is logged as
    a failure. *)
Lemma refreshLocations_item_fails (w : World) (location : DbLocationsRow)
    (reader : LocationReader) (parser : DescriptorParser)
    (error : JsError) (data : string) (parsed : DescriptorEnvelope) :
  locations_of w = [location] →
  reader (loc_type location) (loc_target location)
    = Ok [ErrorItem error; DataItem data] →
  parser data = Ok parsed →
  ∃ w', DatabaseManager.refreshLocations reader parser w = (Ok tt, w')
    ∧ entities_of w' = entities_of w
    ∧ event_summary <$> log_of w'
      = ((event_summary <$> log_of w)
         ++ [ (FAIL, loc_id location, None);
              (SUCCESS, loc_id location, None) ])%list.
Proof.
  intros Hlocations Hreader Hparser.
  unfold DatabaseManager.refreshLocations, DatabaseManager.refreshLocationsWith,
    Database.locations, bind at 1.
  unfold select_locations, bind at 1. simpl.
  fold (locations_of w). rewrite Hlocations. simpl.
  unfold bind at 1, try_catch at 1, bind at 1, lift at 1. rewrite Hreader.
  simpl. unfold bind at 1. simpl. unfold bind at 1, try_catch at 1.
  unfold bind at 1, lift at 1. rewrite Hparser.
  eexists. split; [reflexivity|]. simpl. split; [done|].
  unfold log_of. simpl. by rewrite !fmap_app, <- app_assoc.
Qed.

Lemma filter_all {A} (l : list A) : List.filter (fun _ => true) l = l.
Proof. induction l as [|x l IH]; simpl; [done|]. by rewrite IH. Qed.

Lemma locations_run (w : World) :
  Database.locations w = (Ok (locations_of w), w).
Proof.
  unfold Database.locations, select_locations, bind, get_tables, ret.
  by rewrite filter_all.
Qed.

(** With any operation in the place of [addOrUpdateEntity] that
    succeeds and leaves the update log alone, the scenario gives the
    events the design document expects. *)
Lemma refresh_scenario_when_persist_succeeds
    (persist : DbEntityRequest → M unit) (w : World)
    (location : DbLocationsRow) (reader : LocationReader)
    (parser : DescriptorParser) (error : JsError) (data : string)
    (parsed : DescriptorEnvelope) (md : Metadata) :
  (∀ dbc w0, ∃ w1, persist dbc w0 = (Ok tt, w1) ∧ log_of w1 = log_of w0) →
  locations_of w = [location] →
  reader (loc_type location) (loc_target location)
    = Ok [ErrorItem error; DataItem data] →
  parser data = Ok parsed →
  metadata parsed = Some md →
  ∃ w', DatabaseManager.refreshLocationsWith persist reader parser w
        = (Ok tt, w')
    ∧ event_summary <$> log_of w'
      = ((event_summary <$> log_of w)
         ++ [ (SUCCESS, loc_id location, name md);
              (SUCCESS, loc_id location, None) ])%list.
Proof.
  intros Hpersist Hlocations Hreader Hparser Hmd.
  destruct (Hpersist {| locationId := Some (loc_id location);
                        entity := parsed |} w) as (w1 & Hrun & Hlog).
  unfold DatabaseManager.refreshLocationsWith, bind at 1.
  rewrite locations_run, Hlocations. simpl.
  unfold bind at 1, try_catch at 1, bind at 1, lift at 1. rewrite Hreader.
  cbv [for_of bind ret lift try_catch]. rewrite Hparser, Hrun, Hmd.
  eexists. split; [reflexivity|].
  unfold log_of in *. simpl. by rewrite Hlog, !fmap_app, <- app_assoc.
Qed.

(** ** Listing the entities *)

Lemma sql_leb_total (a b : option string) :
  sql_leb a b = true ∨ sql_leb b a = true.
Proof. destruct a, b; simpl; auto. apply String.leb_total. Qed.

Lemma sql_leb_refl (a : option string) : sql_leb a a = true.
Proof. by destruct (sql_leb_total a a). Qed.

Section sort_by.
Context {A : Type} (leb : A → A → bool).
Hypothesis leb_total : ∀ a b, leb a b = true ∨ leb b a = true.

Lemma insert_by_perm (x : A) (l : list A) : insert_by leb x l ≡ₚ x :: l.
Proof.
  induction l as [|y l IH]; simpl; [done|].
  destruct (leb x y); [done|]. by rewrite IH, Permutation_swap.
Qed.

Lemma sort_by_perm (l : list A) : sort_by leb l ≡ₚ l.
Proof.
  induction l as [|x l IH]; simpl; [done|].
  by rewrite insert_by_perm, IH.
Qed.

Lemma insert_by_head (x y : A) (l : list A) :
  ordered_by leb y x → HdRel (ordered_by leb) y l →
  HdRel (ordered_by leb) y (insert_by leb x l).
Proof.
  intros Hyx [|z l' Hyz]; simpl; [by constructor|].
  destruct (leb x z); by constructor.
Qed.

Lemma insert_by_sorted (x : A) (l : list A) :
  Sorted (ordered_by leb) l → Sorted (ordered_by leb) (insert_by leb x l).
Proof.
  induction 1 as [|y l Hl IH Hy]; simpl; [by repeat constructor|].
  destruct (leb x y) eqn:Hxy.
  - by repeat constructor.
  - constructor; [done|]. apply insert_by_head; [|done].
    unfold ordered_by. destruct (leb_total x y); [congruence|done].
Qed.

Lemma sort_by_sorted (l : list A) : Sorted (ordered_by leb) (sort_by leb l).
Proof.
  induction l as [|x l IH]; simpl; [constructor|].
  by apply insert_by_sorted.
Qed.

(** Where the order does not tell two elements apart, they stay in the
    order they had. *)
Lemma sort_by_indifferent (l : list A) :
  (∀ a b, a ∈ l → b ∈ l → leb a b = true) → sort_by leb l = l.
Proof.
  induction l as [|x l IH]; simpl; [done|]. intros Hall.
  rewrite IH by (intros a b Ha Hb; apply Hall; by right).
  destruct l as [|y l]; simpl; [done|].
  rewrite Hall; [done|by left|by right; left].
Qed.
End sort_by.

(** What [entities] does return: every stored row once, by ascending
    namespace. *)
Lemma entities_by_namespace (w : World) :
  ∃ rows,
    Database.entities w = (Ok (map entityDbToResponse rows), w)
    ∧ rows ≡ₚ entities_of w
    ∧ Sorted (ordered_by by_namespace) rows.
Proof.
  exists (orderBy row_namespace "name" (entities_of w)).
  split; [done|]. unfold orderBy.
  assert (descending "name" = false) as -> by (vm_compute; reflexivity).
  split.
  - apply sort_by_perm.
  - apply (sort_by_sorted by_namespace).
    intros a b. apply sql_leb_total.
Qed.

(** Within one namespace the rows come back in storage order, whatever
    their names. *)
Lemma entities_within_namespace (w : World) (ns : option string) :
  Forall (fun r => row_namespace r = ns) (entities_of w) →
  Database.entities w = (Ok (map entityDbToResponse (entities_of w)), w).
Proof.
  intros Hns. unfold Database.entities, bind, get_tables, ret, orderBy.
  assert (descending "name" = false) as -> by (vm_compute; reflexivity).
  fold (entities_of w). rewrite sort_by_indifferent; [done|].
  rewrite Forall_forall in Hns.
  intros a b Ha Hb. rewrite (Hns a Ha), (Hns b Hb). apply sql_leb_refl.
Qed.

(** C8, where the code departs from it. [orderBy('namespace', 'name')]
    sorts by namespace alone, "name" standing where a direction is
    expected: two entities of namespace "d" stored as "z" then "a" are
    listed in that order. *)
Theorem entities_not_ordered_by_name :
  let w := example_world
             [example_row "uuid-0" "z"; example_row "uuid-1" "a"] [] 2 in
  let run := Database.entities w in
  run = (Ok (returned [] run), w)
  ∧ response_namespace <$> returned [] run = [Some "d"; Some "d"]
  ∧ response_name <$> returned [] run = [Some "z"; Some "a"]
  ∧ String.ltb "a" "z" = true.
Proof. vm_compute. done. Qed.

(** ** Adding an entity *)

Lemma existsb_false {A} (f : A → bool) (l : list A) :
  existsb f l = false ↔ ∀ x, x ∈ l → f x = false.
Proof.
  rewrite <- not_true_iff_false, existsb_exists. split.
  - intros Hno x Hx. apply not_true_is_false. intros Hfx. apply Hno.
    exists x. by rewrite <- list_elem_of_In.
  - intros Hall (x & Hx & Hfx). rewrite <- list_elem_of_In in Hx.
    rewrite (Hall x Hx) in Hfx. done.
Qed.

Lemma same_entity_key_inserted request (w : World) (r : DbEntitiesRow) :
  same_entity_key (inserted_row request w) r = true ↔ holds_key_of request r.
Proof.
  unfold same_entity_key, holds_key_of. simpl.
  rewrite andb_true_iff, !bool_decide_eq_true.
  split; intros [? ?]; split; congruence.
Qed.

Lemma addEntity_run request (w : World) :
  Database.addEntity request w
  = if existsb (same_entity_key (inserted_row request w)) (entities_of w)
    then (Throw (DriverError entities_unique_message), drawn (drawn w))
    else
      let w' :=
        set_tables
          (with_entities (tables w)
             (entities_of w ++ [inserted_row request w]))
          (drawn (drawn w)) in
      match
        List.filter
          (fun r => bool_decide (row_id r = row_id (inserted_row request w)))
          (entities_of w')
      with
      | [] => (Throw (ConflictError "Failed to read the generated entity"), w')
      | row :: _ => (Ok (entityDbToResponse row), w')
      end.
Proof.
  cbv [Database.addEntity entityRequestToDb uuidv4 insert_entity
       select_entities put_tables get_tables ret bind throw drawn set_tables
       tables uuid_source uuid_count entities_of inserted_row request_name
       request_namespace with_entities entities_table row_id].
  destruct w as [[rows locations events] source count].
  destruct (existsb _ rows); [done|].
  by destruct (List.filter _ _).
Qed.

Lemma generated_id_fresh (w : World) (r : DbEntitiesRow) (k : nat) :
  uuid_contract w → entity_ids_generated w → r ∈ entities_of w →
  (uuid_count w ≤ k)%nat → row_id r ≠ uuid_source w k.
Proof.
  intros [Hinj _] Hgen Hr Hk Hid.
  destruct (Hgen r Hr) as (j & Hj & Hrj).
  rewrite Hrj in Hid. apply Hinj in Hid. lia.
Qed.

Lemma transaction_ok {T} (fn : M T) (w w' : World) (v : T) :
  fn w = (Ok v, w') → Database.transaction fn w = (Ok v, w').
Proof.
  intros Hfn. unfold Database.transaction, try_catch, knex_transaction.
  by rewrite Hfn.
Qed.

Lemma transaction_unique_violation {T} (fn : M T) (w w' : World) :
  fn w = (Throw (DriverError entities_unique_message), w') →
  Database.transaction fn w
  = (Throw (ConflictError "Rejected due to a conflicting entity"),
     set_tables (tables w) w').
Proof.
  intros Hfn. unfold Database.transaction, try_catch, knex_transaction.
  by rewrite Hfn.
Qed.

(** C7. With identifiers as [uuidv4] promises them and a table that only
    holds generated uids: when no stored entity has the name and
    namespace of the request, [addEntity] in its transaction returns a
    response of generation 1 whose uid is non-empty and differs from the
    uid of every other stored entity; when one has them, it fails with a
    conflict and the tables are as before. *)
Theorem addEntity_new_or_conflict request (w : World) :
  uuid_contract w →
  entity_ids_generated w →
  let run := Database.transaction (Database.addEntity request) w in
  ((∀ r, r ∈ entities_of w → ¬ holds_key_of request r) →
   ∃ resp w' u,
     run = (Ok resp, w')
     ∧ response_generation resp = Some 1
     ∧ response_uid resp = Some u
     ∧ u ≠ ""
     ∧ entities_of w' = (entities_of w ++ [inserted_row request w])%list
     ∧ row_id (inserted_row request w) = u
     ∧ ∀ r, r ∈ entities_of w → row_id r ≠ u)
  ∧ ((∃ r, r ∈ entities_of w ∧ holds_key_of request r) →
     ∃ e w',
       run = (Throw e, w') ∧ is_conflict e = true ∧ tables w' = tables w).
Proof.
  intros Hcontract Hgen run. subst run. split.
  - intros Hfree.
    assert (Hfresh : ∀ r, r ∈ entities_of w →
              row_id r ≠ row_id (inserted_row request w)).
    { intros r Hr. apply generated_id_fresh; auto. }
    eexists _, _, (row_id (inserted_row request w)).
    split.
    + apply transaction_ok. rewrite addEntity_run.
      replace (existsb _ _) with false.
      2:{ symmetry. apply existsb_false. intros r Hr.
          apply not_true_is_false. rewrite same_entity_key_inserted. auto. }
      simpl. unfold entities_of at 1. simpl.
      rewrite List.filter_app, filter_none.
      2:{ apply Forall_forall. intros r Hr. apply bool_decide_eq_false. auto. }
      simpl. rewrite bool_decide_eq_true_2 by done. reflexivity.
    + destruct (entityDbToResponse_of_written (inserted_row request w)
                  (metadata (entity request)) eq_refl) as (Hu & _ & Hg).
      split_and!; try done. apply Hcontract.
  - intros (r & Hr & Hkey).
    eexists _, _. split.
    + apply transaction_unique_violation. rewrite addEntity_run.
      replace (existsb _ _) with true; [reflexivity|].
      symmetry. apply existsb_exists. exists r.
      rewrite <- list_elem_of_In, same_entity_key_inserted. done.
    + done.
Qed.

Lemma example_ids_generated (id n : string) (k count : nat) :
  id = example_uuid k → (k < count)%nat →
  entity_ids_generated (example_world [example_row id n] [] count).
Proof.
  intros -> Hk r ->%list_elem_of_singleton. exists k. by split.
Qed.

Lemma addEntity_new_or_conflict_witness :
  let w := example_world [example_row "uuid-0" "other"] [] 1 in
  let run := Database.transaction (Database.addEntity example_request) w in
  uuid_contract w
  ∧ entity_ids_generated w
  ∧ ∃ resp w' u,
      run = (Ok resp, w')
      ∧ response_generation resp = Some 1
      ∧ response_uid resp = Some u
      ∧ u ≠ ""
      ∧ entities_of w'
        = (entities_of w ++ [inserted_row example_request w])%list
      ∧ row_id (inserted_row example_request w) = u
      ∧ ∀ r, r ∈ entities_of w → row_id r ≠ u.
Proof.
  intros w run.
  assert (Hc : uuid_contract w) by apply example_uuid_contract.
  assert (Hg : entity_ids_generated w)
    by (apply (example_ids_generated _ _ 0%nat); [reflexivity|lia]).
  split; [exact Hc|]. split; [exact Hg|].
  apply (addEntity_new_or_conflict example_request w Hc Hg).
  intros r ->%list_elem_of_singleton [Hname _]. discriminate Hname.
Defined.

(** The two assumptions on the world are kept by a successful
    [addEntity]. *)
Lemma addEntity_keeps_ids_generated request (w w' : World)
    (resp : DbEntityResponse) :
  uuid_contract w → entity_ids_generated w →
  Database.addEntity request w = (Ok resp, w') →
  uuid_contract w' ∧ entity_ids_generated w'.
Proof.
  intros Hcontract Hgen. rewrite addEntity_run.
  destruct (existsb _ _); [done|]. simpl.
  destruct (List.filter _ _); [done|]. intros [= _ <-].
  split; [done|]. intros r. unfold entities_of at 1. simpl.
  intros [Hr| ->%list_elem_of_singleton]%elem_of_app.
  - destruct (Hgen r Hr) as (k & Hk & Hid). exists k. split; [lia|done].
  - exists (S (uuid_count w)). split; [lia|done].
Qed.

(** ** Adding a location *)

Lemma filter_unique_target (rows : list DbLocationsRow) (target : string)
    (r : DbLocationsRow) (rest : list DbLocationsRow) :
  NoDup (loc_target <$> rows) →
  List.filter (has_target target) rows = r :: rest → rest = [].
Proof.
  induction rows as [|x rows IH]; [done|].
  rewrite fmap_cons, NoDup_cons. intros [Hx Hnd]. simpl.
  unfold has_target at 1. case_bool_decide as Ht; [|by apply IH].
  intros [= <- <-].
  destruct (List.filter (has_target target) rows) as [|y rest] eqn:Hf; [done|].
  apply filter_some in Hf as [Hy Hty]. unfold has_target in Hty.
  apply bool_decide_eq_true in Hty. destruct Hx. rewrite Ht, <- Hty.
  by apply list_elem_of_fmap_2.
Qed.

Lemma addLocation_existing (location : AddDatabaseLocation) (w : World)
    (existing : DbLocationsRow) (rest : list DbLocationsRow) :
  List.filter (has_target (add_target location)) (locations_of w)
    = existing :: rest →
  Database.addLocation location w = (Ok (Some existing), w).
Proof.
  intros Hf. unfold has_target, locations_of in Hf.
  cbv [Database.addLocation knex_transaction select_locations get_tables
       ret bind].
  by rewrite Hf.
Qed.

Lemma addLocation_new (location : AddDatabaseLocation) (w : World) :
  uuid_contract w → location_ids_generated w →
  List.filter (has_target (add_target location)) (locations_of w) = [] →
  let row :=
    {| loc_id := uuid_source w (uuid_count w);
       loc_type := add_type location;
       loc_target := add_target location |} in
  Database.addLocation location w
  = (Ok (Some row),
     set_tables (with_locations (tables w) (locations_of w ++ [row]))
       (drawn w)).
Proof.
  intros [Hinj _] Hgen Hf row.
  assert (Hex : existsb (has_target (add_target location)) (locations_of w)
                = false).
  { apply existsb_false. intros r Hr. apply not_true_is_false. intros Hr'.
    assert (Hin : r ∈ List.filter (has_target (add_target location))
                        (locations_of w))
      by (apply list_elem_of_In, filter_In; by rewrite <- list_elem_of_In).
    rewrite Hf in Hin. by apply elem_of_nil in Hin. }
  assert (Hid : List.filter (fun r => bool_decide (loc_id r = loc_id row))
                  (locations_of w ++ [row]) = [row]).
  { rewrite List.filter_app, filter_none; simpl.
    - by rewrite bool_decide_eq_true_2.
    - apply Forall_forall. intros r Hr. apply bool_decide_eq_false.
      destruct (Hgen r Hr) as (k & Hk & ->). intros Heq%Hinj. lia. }
  subst row. destruct w as [[rows locations events] source count].
  cbv [locations_of tables locations_table has_target uuid_source uuid_count
       loc_id loc_target] in Hf, Hex, Hid |- *.
  cbv [Database.addLocation knex_transaction select_locations insert_location
       uuidv4 put_tables get_tables ret bind throw drawn set_tables
       with_locations tables locations_table uuid_source uuid_count
       loc_id loc_target].
  rewrite Hf. cbv beta iota. rewrite Hex. cbv beta iota. by rewrite Hid.
Qed.

(** C9. With identifiers as [uuidv4] promises them, a table that only
    holds generated identifiers and no target stored twice: two calls of
    [addLocation] with one target return the same row, and afterwards
    that row is the only one with the target. *)
Theorem addLocation_idempotent (first second : AddDatabaseLocation)
    (w : World) :
  add_target second = add_target first →
  uuid_contract w →
  location_ids_generated w →
  NoDup (loc_target <$> locations_of w) →
  ∃ row w1 w2,
    Database.addLocation first w = (Ok (Some row), w1)
    ∧ Database.addLocation second w1 = (Ok (Some row), w2)
    ∧ loc_target row = add_target first
    ∧ List.filter (has_target (add_target first)) (locations_of w2) = [row].
Proof.
  intros Htarget Hcontract Hgen Hnd.
  destruct (List.filter (has_target (add_target first)) (locations_of w))
    as [|existing rest] eqn:Hf.
  - eexists _, _, _. split; [by apply addLocation_new|].
    assert (Hf' : List.filter (has_target (add_target first))
                    (locations_of w ++
                     [{| loc_id := uuid_source w (uuid_count w);
                         loc_type := add_type first;
                         loc_target := add_target first |}])
                  = [{| loc_id := uuid_source w (uuid_count w);
                        loc_type := add_type first;
                        loc_target := add_target first |}]).
    { rewrite List.filter_app, Hf. simpl. unfold has_target. simpl.
      by rewrite bool_decide_eq_true_2. }
    split; [eapply addLocation_existing; rewrite Htarget; exact Hf'|].
    split; [done|exact Hf'].
  - assert (rest = []) as -> by by eapply filter_unique_target.
    exists existing, w, w. split_and!.
    + by eapply addLocation_existing.
    + eapply addLocation_existing. by rewrite Htarget.
    + apply filter_some in Hf as [_ Ht]. by apply bool_decide_eq_true in Ht.
    + done.
Qed.

Lemma addLocation_idempotent_witness :
  let w := example_world [] [example_location] 1 in
  let first := {| add_type := "a"; add_target := "b" |} in
  let second := {| add_type := "other"; add_target := "b" |} in
  ∃ row w1 w2,
    Database.addLocation first w = (Ok (Some row), w1)
    ∧ Database.addLocation second w1 = (Ok (Some row), w2)
    ∧ loc_target row = add_target first
    ∧ List.filter (has_target (add_target first)) (locations_of w2) = [row].
Proof.
  intros w first second.
  apply (addLocation_idempotent first second w).
  - reflexivity.
  - apply example_uuid_contract.
  - intros r ->%list_elem_of_singleton. exists 0%nat.
    split; [simpl; lia|reflexivity].
  - apply NoDup_singleton.
Defined.

(** ** The assumptions on the world are kept *)

Lemma updateEntity_keeps_ids_generated request (w w' : World)
    (resp : DbEntityResponse) :
  uuid_contract w → entity_ids_generated w →
  Database.updateEntity request w = (Ok resp, w') →
  uuid_contract w' ∧ entity_ids_generated w'.
Proof.
  intros Hcontract Hgen (s & newRow & _ & _ & _ & -> & _)%updateEntity_ok.
  split; [done|]. intros r'. unfold entities_of at 1. simpl.
  unfold updated_rows. rewrite list_elem_of_In, in_map_iff.
  intros (r & <- & Hr%list_elem_of_In).
  destruct (Hgen r Hr) as (k & Hk & Hid). exists k. split; [lia|].
  destruct (targets s (entities_of w) r); [|done]. by rewrite written_id.
Qed.

(** The store writes no metadata blob but through [serializeMetadata]. *)
Lemma addEntity_keeps_metadata_serialized request (w w' : World)
    (resp : DbEntityResponse) :
  metadata_serialized w →
  Database.addEntity request w = (Ok resp, w') →
  metadata_serialized w'.
Proof.
  intros Hstore. rewrite addEntity_run.
  destruct (existsb _ _); [done|]. simpl.
  destruct (List.filter _ _); [done|]. intros [= _ <-].
  intros r. unfold entities_of at 1. simpl.
  intros [Hr| ->%list_elem_of_singleton]%elem_of_app; [by apply Hstore|].
  by exists (metadata (entity request)).
Qed.

Lemma updateEntity_keeps_metadata_serialized request (w w' : World)
    (resp : DbEntityResponse) :
  metadata_serialized w →
  Database.updateEntity request w = (Ok resp, w') →
  metadata_serialized w'.
Proof.
  intros Hstore (s & newRow & _ & HnewRow & _ & -> & _)%updateEntity_ok.
  destruct (entityRequestToDb_run request w)
    as (newRow' & HnewRow' & _ & _ & _ & _ & Hmd).
  rewrite HnewRow in HnewRow'. injection HnewRow' as <-.
  intros r'. unfold entities_of at 1. simpl.
  unfold updated_rows. rewrite list_elem_of_In, in_map_iff.
  intros (r & <- & Hr%list_elem_of_In).
  destruct (targets s (entities_of w) r); [|by apply Hstore].
  exists (metadata (entity request)).
  unfold written. by destruct (uses_uid s).
Qed.

Lemma empty_world_metadata_serialized (source : nat → string) :
  metadata_serialized
    {| tables := {| entities_table := []; locations_table := [];
                    location_update_log := [] |};
       uuid_source := source; uuid_count := 0 |}.
Proof. intros r Hr. by apply elem_of_nil in Hr. Qed.

Lemma empty_world_ids_generated (source : nat → string) :
  entity_ids_generated
    {| tables := {| entities_table := []; locations_table := [];
                    location_update_log := [] |};
       uuid_source := source; uuid_count := 0 |}
  ∧ location_ids_generated
      {| tables := {| entities_table := []; locations_table := [];
                      location_update_log := [] |};
         uuid_source := source; uuid_count := 0 |}.
Proof. split; intros r Hr; by apply elem_of_nil in Hr. Qed.

(** ** The cases of the test suite *)

(** "happy path: adds entity to empty database" *)
Example test_addEntity_happy_path :
  let run :=
    Database.transaction (Database.addEntity example_request)
      (example_world [] [] 0) in
  let resp := returned no_response run in
  fst run = Ok resp
  ∧ resp_locationId resp = None
  ∧ apiVersion (resp_entity resp) = "a"
  ∧ kind (resp_entity resp) = "b"
  ∧ response_uid resp = Some "uuid-1"
  ∧ response_generation resp = Some 1
  ∧ response_name resp = Some "c"
  ∧ response_namespace resp = Some "d"
  ∧ annotation (resp_entity resp) "g" = Some "h"
  ∧ spec (resp_entity resp) = Some (JObject [("i", JString "j")]).
Proof. vm_compute. done. Qed.

(** "rejects adding the same-named entity twice" *)
Example test_addEntity_twice :
  let add := Database.transaction (Database.addEntity example_request) in
  fst (add (snd (add (example_world [] [] 0))))
  = Throw (ConflictError "Rejected due to a conflicting entity").
Proof. vm_compute. done. Qed.

(** "accepts adding the same-named entity twice if on different
    namespaces" *)
Example test_addEntity_two_namespaces :
  let request ns :=
    {| locationId := None;
       entity :=
         {| apiVersion := "a"; kind := "b";
            metadata :=
              Some {| uid := None; etag := None; generation := None;
                      name := Some "c"; namespace := Some ns;
                      labels := None; annotations := None |};
            spec := None |} |} in
  let first :=
    Database.transaction (Database.addEntity (request "namespace1"))
      (example_world [] [] 0) in
  let second :=
    Database.transaction (Database.addEntity (request "namespace2"))
      (snd first) in
  fst second = Ok (returned no_response second)
  ∧ row_namespace <$> entities_of (snd second)
    = [Some "namespace1"; Some "namespace2"].
Proof. vm_compute. done. Qed.

(** "manages locations" *)
Example test_manages_locations :
  let input := {| add_type := "a"; add_target := "b" |} in
  let output :=
    {| loc_id := "uuid-0"; loc_type := "a"; loc_target := "b" |} in
  let added := Database.addLocation input (example_world [] [] 0) in
  let removed := Database.removeLocation "uuid-0" (snd added) in
  fst (Database.locations (snd added)) = Ok [output]
  ∧ fst (Database.location "uuid-0" (snd added)) = Ok output
  ∧ fst (Database.locations (snd removed)) = Ok []
  ∧ fst (Database.location "uuid-0" (snd removed))
    = Throw (NotFoundError "Found no location with ID uuid-0").
Proof. vm_compute. done. Qed.

(** "instead of adding second location with the same target, returns
    existing one" *)
Example test_second_location_same_target :
  let input := {| add_type := "a"; add_target := "b" |} in
  let first := Database.addLocation input (example_world [] [] 0) in
  let second := Database.addLocation input (snd first) in
  fst second = fst first
  ∧ fst (Database.locations (snd second))
    = Ok (option_list (returned None first)).
Proof. vm_compute. done. Qed.

(** * Further properties *)

(** ** Update: errors and written columns *)

Lemma entityRequestToDb_request_row request (w : World) :
  entityRequestToDb request w = (Ok (request_row request w), drawn w).
Proof. reflexivity. Qed.

Lemma serializeSpec_truthy (spec : option json) :
  serializeSpec spec = truthy_json spec.
Proof. unfold serializeSpec. by destruct (truthy_json spec). Qed.

(** X1. A request whose metadata has neither a (non-empty) uid nor a
    (non-empty) name is refused with [InputError], and no table
    changes. *)
Theorem updateEntity_without_identity request (w : World) :
  request_uid request = None →
  request_name request = None →
  ∃ w', Database.updateEntity request w = (Throw neither_uid_nor_name, w')
        ∧ tables w' = tables w.
Proof.
  intros Hu Hn. exists (drawn w). split; [|done].
  unfold Database.updateEntity, bind. rewrite entityRequestToDb_request_row.
  unfold request_uid, request_name in *.
  destruct (metadata (entity request)) as [md|]; simpl in *.
  - by rewrite Hu, Hn.
  - done.
Qed.

Lemma updateEntity_without_identity_witness :
  let request :=
    {| locationId := None;
       entity := {| apiVersion := "a"; kind := "b"; metadata := None;
                    spec := None |} |} in
  let w := example_world [example_row "uuid-0" "c"] [] 1 in
  ∃ w', Database.updateEntity request w = (Throw neither_uid_nor_name, w')
        ∧ tables w' = tables w.
Proof.
  intros request w.
  apply (updateEntity_without_identity request w); reflexivity.
Defined.

(** X2. When no stored row is selected by the strategy of the request,
    [updateEntity] fails with a conflict and no table changes. *)
Theorem updateEntity_no_target_conflicts request (w : World) (s : Strategy) :
  strategy_of request = Some s →
  Forall (fun r => targets s (entities_of w) r = false) (entities_of w) →
  ∃ e w', Database.updateEntity request w = (Throw e, w')
          ∧ is_conflict e = true ∧ tables w' = tables w.
Proof.
  intros Hs Hnone.
  unfold Database.updateEntity, bind at 1.
  rewrite entityRequestToDb_request_row. revert Hs. unfold strategy_of.
  set (md := default empty_metadata (metadata (entity request))).
  destruct (truthy_string (uid md)) as [u|];
    [destruct (truthy_number (generation md)) as [g|]
    |destruct (truthy_string (name md)) as [n|];
      [destruct (truthy_number (generation md)) as [g|]|]];
    intros [= <-].
  - unfold Database.update_by_uid_with_generation_check, bind.
    rewrite update_entities_none by exact Hnone. by eexists _, _.
  - unfold Database.update_by_uid_unconditionally, bind.
    rewrite update_entities_none by exact Hnone. by eexists _, _.
  - unfold Database.update_by_name_with_generation_check, bind.
    rewrite update_entities_none by exact Hnone. by eexists _, _.
  - unfold Database.update_by_name_unconditionally, bind at 1.
    rewrite select_entities_run.
    change (entities_of (drawn w)) with (entities_of w).
    destruct (List.filter _ (entities_of w)) as [|old rest] eqn:Hold.
    + by eexists _, _.
    + exfalso. pose proof Hold as Hold'.
      apply filter_some in Hold' as [Hin _].
      rewrite Forall_forall in Hnone. specialize (Hnone old Hin).
      simpl in Hnone. unfold named in Hnone. rewrite Hold in Hnone.
      by rewrite !bool_decide_eq_true_2 in Hnone.
Qed.

Lemma updateEntity_no_target_conflicts_witness :
  let request := example_update "uuid-9" 1 in
  let w := example_world [example_row "uuid-0" "c"] [] 1 in
  ∃ e w', Database.updateEntity request w = (Throw e, w')
          ∧ is_conflict e = true ∧ tables w' = tables w.
Proof.
  intros request w.
  apply (updateEntity_no_target_conflicts request w
           (ByUidAndGeneration "uuid-9" 1)).
  - reflexivity.
  - repeat constructor.
Defined.

(** X3. Whatever the strategy, a successful [updateEntity] replaces the
    api version, kind, spec, serialized metadata and location id of every
    row it writes by those of the request; a request without location id
    leaves the written rows with none, and one whose spec is falsy
    ([undefined], [null], [false], [0] or the empty string) leaves them
    with a NULL spec. *)
Theorem updateEntity_replaces_payload request (w w' : World)
    (resp : DbEntityResponse) :
  Database.updateEntity request w = (Ok resp, w') →
  ∃ s, strategy_of request = Some s
    ∧ Forall2
        (fun r r' =>
           if targets s (entities_of w) r
           then carries_payload_of request r'
           else r' = r)
        (entities_of w) (entities_of w').
Proof.
  intros (s & newRow & Hs & HnewRow & _ & -> & _)%updateEntity_ok.
  rewrite entityRequestToDb_request_row in HnewRow. injection HnewRow as <-.
  exists s. split; [done|]. apply Forall2_map_same. intros r.
  destruct (targets s (entities_of w) r); [|done].
  unfold written, carries_payload_of.
  destruct (uses_uid s); simpl; split_and!; try done;
    apply serializeSpec_truthy.
Qed.

Lemma updateEntity_replaces_payload_witness :
  let w := example_world [example_row "uuid-0" "c"] [] 1 in
  let request := example_update "uuid-0" 1 in
  let run := Database.updateEntity request w in
  run = (Ok (returned no_response run), snd run)
  ∧ ∃ s, strategy_of request = Some s
      ∧ Forall2
          (fun r r' =>
             if targets s (entities_of w) r
             then carries_payload_of request r'
             else r' = r)
          (entities_of w) (entities_of (snd run)).
Proof.
  intros w request run.
  assert (H : run = (Ok (returned no_response run), snd run))
    by (vm_compute; reflexivity).
  split; [exact H|]. exact (updateEntity_replaces_payload _ _ _ _ H).
Defined.

(** ** Update: read-back and uniqueness *)

Lemma same_entity_key_sym (a b : DbEntitiesRow) :
  same_entity_key a b = same_entity_key b a.
Proof.
  unfold same_entity_key.
  rewrite (bool_decide_ext (row_name a = row_name b) (row_name b = row_name a))
    by (split; congruence).
  by rewrite (bool_decide_ext (row_namespace a = row_namespace b)
                (row_namespace b = row_namespace a)) by (split; congruence).
Qed.

(** A statement is refused exactly when a written row shares its key with
    a row it did not write, or with another written row; here for the
    first case. *)
Lemma update_violation_written_unwritten
    (l : list (bool * DbEntitiesRow)) (x y : DbEntitiesRow) :
  (true, x) ∈ l → (false, y) ∈ l → same_entity_key x y = true →
  update_violation l = true.
Proof.
  induction l as [|[t r] l IH]; [by intros ?%elem_of_nil|].
  intros Hx Hy Hkey. simpl. apply orb_true_iff.
  apply elem_of_cons in Hx as [[= <- <-]|Hx];
    apply elem_of_cons in Hy as [[= ]|Hy]; subst.
  - left. apply existsb_exists. exists (false, y).
    rewrite <- list_elem_of_In. by split.
  - left. apply existsb_exists. exists (true, x).
    rewrite <- list_elem_of_In. split; [done|]. simpl.
    by rewrite same_entity_key_sym.
  - right. by apply IH.
Qed.

Lemma update_entities_violation cond set (w : World) (x y : DbEntitiesRow) :
  x ∈ entities_of w → cond x = true →
  y ∈ entities_of w → cond y = false →
  same_entity_key (set x) y = true →
  update_entities cond set w = (Throw (DriverError entities_unique_message), w).
Proof.
  intros Hx Hcx Hy Hcy Hkey. rewrite update_entities_run.
  rewrite (update_violation_written_unwritten _ (set x) y); [done| | |done].
  - apply list_elem_of_In, in_map_iff. exists x.
    rewrite Hcx. by rewrite <- list_elem_of_In.
  - apply list_elem_of_In, in_map_iff. exists y.
    rewrite Hcy. by rewrite <- list_elem_of_In.
Qed.

Lemma update_entities_ok_no_violation cond set (w w' : World) (n : nat)
    (x y : DbEntitiesRow) :
  update_entities cond set w = (Ok n, w') →
  x ∈ entities_of w → cond x = true →
  y ∈ entities_of w → cond y = false →
  same_entity_key (set x) y = false.
Proof.
  intros Hok Hx Hcx Hy Hcy. apply not_true_is_false. intros Hkey.
  by rewrite (update_entities_violation _ _ _ x y) in Hok.
Qed.

(** X4. An update by uid that would give its row the name and namespace
    of another stored entity is refused by the storage layer: the tables
    are unchanged, and [transaction] reports the refusal as a conflict. *)
Theorem updateEntity_onto_taken_name request (w : World) (s : Strategy)
    (r other : DbEntitiesRow) :
  strategy_of request = Some s →
  uses_uid s = true →
  r ∈ entities_of w → targets s (entities_of w) r = true →
  other ∈ entities_of w → targets s (entities_of w) other = false →
  holds_key_of request other →
  ∃ w', Database.updateEntity request w
        = (Throw (DriverError entities_unique_message), w')
    ∧ tables w' = tables w
    ∧ ∃ w'', Database.transaction (Database.updateEntity request) w
             = (Throw rejected_as_conflicting, w'')
        ∧ tables w'' = tables w.
Proof.
  intros Hs Huid Hr Htr Hother Htother [Hname Hnamespace].
  assert (Hrun : Database.updateEntity request w
                 = (Throw (DriverError entities_unique_message), drawn w)).
  { unfold Database.updateEntity, bind at 1.
    rewrite entityRequestToDb_request_row. revert Hs. unfold strategy_of.
    set (md := default empty_metadata (metadata (entity request))).
    assert (Hkey : ∀ gen, same_entity_key
              (Database.set_all_but_id (request_row request w) gen r) other
              = true).
    { intros gen. unfold same_entity_key. simpl.
      by rewrite !bool_decide_eq_true_2. }
    destruct (truthy_string (uid md)) as [u|];
      [destruct (truthy_number (generation md)) as [g|]
      |destruct (truthy_string (name md)) as [n|];
        [destruct (truthy_number (generation md)) as [g|]|]];
      intros [= <-]; try discriminate Huid.
    - unfold Database.update_by_uid_with_generation_check, bind.
      by rewrite (update_entities_violation _ _ (drawn w) r other).
    - unfold Database.update_by_uid_unconditionally, bind.
      by rewrite (update_entities_violation _ _ (drawn w) r other). }
  exists (drawn w). split; [exact Hrun|]. split; [done|].
  eexists. split; [|shelve].
  unfold Database.transaction, try_catch, knex_transaction. rewrite Hrun.
  reflexivity.
  Unshelve. done.
Qed.

Lemma updateEntity_onto_taken_name_witness :
  let w := example_world
             [example_row "uuid-0" "old"; example_row "uuid-1" "c"] [] 2 in
  let request := example_update "uuid-0" 1 in
  ∃ w', Database.updateEntity request w
        = (Throw (DriverError entities_unique_message), w')
    ∧ tables w' = tables w
    ∧ ∃ w'', Database.transaction (Database.updateEntity request) w
             = (Throw rejected_as_conflicting, w'')
        ∧ tables w'' = tables w.
Proof.
  intros w request.
  apply (updateEntity_onto_taken_name request w
           (ByUidAndGeneration "uuid-0" 1)
           (example_row "uuid-0" "old") (example_row "uuid-1" "c")).
  - reflexivity.
  - reflexivity.
  - apply list_elem_of_here.
  - reflexivity.
  - apply list_elem_of_further, list_elem_of_here.
  - reflexivity.
  - split; reflexivity.
Defined.

Lemma filter_nil_Forall {A} (cond : A → bool) (l : list A) :
  List.filter cond l = [] → Forall (fun x => cond x = false) l.
Proof.
  induction l as [|x l IH]; simpl; [by constructor|].
  destruct (cond x) eqn:Hx; [done|]. intros Hl. constructor; auto.
Qed.

Lemma update_then_read_back cond set cond' (e e' : JsError)
    (w w' : World) (result : Result DbEntityResponse) :
  (∀ r, cond r = true → cond' (set r) = true) →
  bind (update_entities cond set)
    (fun rows =>
       match rows with
       | O => throw e
       | S _ =>
           bind (select_entities cond')
             (fun result =>
                match result with
                | [] => throw e'
                | row :: _ => ret (entityDbToResponse row)
                end)
       end) w = (result, w') →
  match result with
  | Throw err =>
      (err = e ∨ err = DriverError entities_unique_message) ∧ w' = w
  | Ok resp =>
      ∃ x, x ∈ entities_of w
           ∧ (cond x = true ∧ resp = entityDbToResponse (set x)
              ∨ cond x = false ∧ cond' x = true
                ∧ resp = entityDbToResponse x)
  end.
Proof.
  intros Hset. unfold bind at 1.
  destruct (List.filter cond (entities_of w)) as [|x0 rest0] eqn:Hsel.
  { rewrite update_entities_none by by apply filter_nil_Forall.
    intros [= <- <-]. split; [by left|done]. }
  apply filter_some in Hsel as [Hx Hcx]. rename x0 into x.
  destruct (update_entities cond set w) as [[n|err] w1] eqn:Hu.
  - apply update_entities_ok in Hu as [-> ->].
    destruct (length _) as [|n] eqn:Hn.
    { apply length_zero_iff_nil in Hn.
      assert (Hin : x ∈ List.filter cond (entities_of w))
        by (apply list_elem_of_In, filter_In; by rewrite <- list_elem_of_In).
      rewrite Hn in Hin. by apply elem_of_nil in Hin. }
    unfold bind. rewrite select_entities_run. unfold entities_of at 1. simpl.
    destruct (List.filter cond' _) as [|row rest] eqn:Hf.
    + exfalso.
      assert (Hin : set x ∈ List.filter cond'
                (map (fun r => if cond r then set r else r) (entities_of w))).
      { apply list_elem_of_In, filter_In. split; [|by apply Hset].
        apply in_map_iff. exists x. rewrite Hcx.
        by rewrite <- list_elem_of_In. }
      rewrite Hf in Hin. by apply elem_of_nil in Hin.
    + intros [= <- <-]. apply filter_some in Hf as [Hin Hrow].
      apply list_elem_of_In, in_map_iff in Hin as (y & Hy & Hin).
      apply list_elem_of_In in Hin. exists y. split; [done|].
      destruct (cond y) eqn:Hcy; subst row; [by left|by right].
  - apply update_entities_throw in Hu as [-> ->].
    intros [= <- <-]. split; [by right|done].
Qed.

Lemma update_then_answer cond set (e : JsError) (resp : DbEntityResponse)
    (w w' : World) (err : JsError) :
  bind (update_entities cond set)
    (fun rows => match rows with O => throw e | S _ => ret resp end) w
  = (Throw err, w') →
  (err = e ∨ err = DriverError entities_unique_message) ∧ w' = w.
Proof.
  unfold bind.
  destruct (List.filter cond (entities_of w)) as [|x rest] eqn:Hsel.
  { rewrite update_entities_none by by apply filter_nil_Forall.
    intros [= <- <-]. split; [by left|done]. }
  destruct (update_entities cond set w) as [[n|err'] w1] eqn:Hu.
  - apply update_entities_ok in Hu as [-> ->]. by rewrite Hsel.
  - apply update_entities_throw in Hu as [-> ->].
    intros [= <- <-]. split; [by right|done].
Qed.

Ltac bool_cond :=
  repeat match goal with
  | H : _ && _ = true |- _ => apply andb_true_iff in H as [? ?]
  | H : bool_decide _ = true |- _ => apply bool_decide_eq_true in H
  | |- _ && _ = true => apply andb_true_iff; split
  | |- bool_decide _ = true => apply bool_decide_eq_true
  end.

(** X5. Without a concurrent writer the read-back after an update always
    finds a row, so [updateEntity] fails in three ways only: the request
    has neither uid nor name, no row is selected (a conflict), or the
    storage layer refuses the new name; in each case no table changes. *)
Theorem updateEntity_failure_changes_nothing request (w w' : World)
    (e : JsError) :
  Database.updateEntity request w = (Throw e, w') →
  update_failure e ∧ tables w' = tables w.
Proof.
  unfold Database.updateEntity, bind at 1.
  rewrite entityRequestToDb_request_row. unfold update_failure.
  set (md := default empty_metadata (metadata (entity request))).
  destruct (truthy_string (uid md)) as [u|];
    [destruct (truthy_number (generation md)) as [g|]
    |destruct (truthy_string (name md)) as [n|];
      [destruct (truthy_number (generation md)) as [g|]|]].
  - intros [[-> | ->] ->]%update_then_answer; auto.
  - intros H. apply update_then_read_back in H;
      [destruct H as [[-> | ->] ->]; auto|intros r Hr; by bool_cond].
  - intros H. apply update_then_read_back in H;
      [destruct H as [[-> | ->] ->]; auto
      |intros r Hr; bool_cond; simpl; auto; congruence].
  - unfold Database.update_by_name_unconditionally, bind at 1.
    rewrite select_entities_run.
    destruct (List.filter _ _) as [|old rest]; [intros [= <- <-]; auto|].
    intros H. apply update_then_read_back in H;
      [destruct H as [[-> | ->] ->]; auto
      |intros r Hr; bool_cond; simpl; auto; congruence].
  - intros [= <- <-]. auto.
Qed.

Lemma updateEntity_failure_changes_nothing_witness :
  let w := example_world
             [example_row "uuid-0" "old"; example_row "uuid-1" "c"] [] 2 in
  let run := Database.updateEntity (example_update "uuid-0" 1) w in
  run = (Throw (DriverError entities_unique_message), snd run)
  ∧ update_failure (DriverError entities_unique_message)
  ∧ tables (snd run) = tables w.
Proof.
  intros w run.
  assert (H : run = (Throw (DriverError entities_unique_message), snd run))
    by (vm_compute; reflexivity).
  split; [exact H|].
  exact (updateEntity_failure_changes_nothing _ _ _ _ H).
Defined.

(** X6. With uids stored once each, a successful update by uid alone, by
    name and generation, or by name alone answers with the row it wrote:
    the response carries the uid of a selected row and, that row's
    generation being a safe integer (below [2^53] in magnitude), that
    generation plus one. *)
Theorem updateEntity_answers_with_written_row request (w w' : World)
    (resp : DbEntityResponse) (s : Strategy) :
  strategy_of request = Some s →
  reads_back s = true →
  NoDup (row_id <$> entities_of w) →
  Database.updateEntity request w = (Ok resp, w') →
  ∃ r, r ∈ entities_of w
       ∧ targets s (entities_of w) r = true
       ∧ response_uid resp = Some (row_id r)
       ∧ (safe_integer (row_generation r) →
          response_generation resp = Some (row_generation r + 1)).
Proof.
  intros Hs Hreads Hnd.
  unfold Database.updateEntity, bind at 1.
  rewrite entityRequestToDb_request_row. revert Hs. unfold strategy_of.
  set (md := default empty_metadata (metadata (entity request))).
  assert (Hwritten : ∀ row,
    row_metadata row = serializeMetadata (metadata (entity request)) →
    response_uid (entityDbToResponse row) = Some (row_id row)
    ∧ response_generation (entityDbToResponse row)
      = Some (row_generation row)).
  { intros row Hrow.
    by destruct (entityDbToResponse_of_written row _ Hrow) as (? & _ & ?). }
  destruct (truthy_string (uid md)) as [u|];
    [destruct (truthy_number (generation md)) as [g|]
    |destruct (truthy_string (name md)) as [n|];
      [destruct (truthy_number (generation md)) as [g|]|]];
    intros [= <-]; try discriminate Hreads.
  - intros H. apply update_then_read_back in H; [|intros r Hr; by bool_cond].
    destruct H as (x & Hx & [[Hc ->]|(Hc & Hc' & _)]); [|congruence].
    exists x. destruct (Hwritten (Database.set_all_but_id
      (request_row request w) (fun r => row_generation r + 1) x) eq_refl).
    done.
  - intros H. pose proof H as Hrun.
    apply update_then_read_back in H;
      [|intros r Hr; bool_cond; simpl; auto; congruence].
    destruct H as (x & Hx & [[Hc ->]|(Hc & Hc' & _)]).
    + exists x. destruct (Hwritten (Database.set_all_but_identity
        (request_row request w) (fun _ => js_add g 1) x) eq_refl) as [-> ->].
      simpl. split_and!; try done. intros Hsafe. bool_cond. subst g.
      by rewrite js_add_one_safe.
    + exfalso. unfold Database.update_by_name_with_generation_check,
        bind at 1 in Hrun.
      destruct (update_entities _ _ (drawn w)) as [[k|err] w1] eqn:Hu;
        [|done].
      pose proof Hu as Hcount. apply update_entities_ok in Hcount as [-> _].
      destruct (List.filter _ (entities_of (drawn w))) as [|y rest] eqn:Hsel;
        [done|].
      apply filter_some in Hsel as [Hy Hcy].
      assert (Hkey := update_entities_ok_no_violation _ _ _ _ _ y x
                        Hu Hy Hcy Hx Hc).
      revert Hkey. unfold same_entity_key. simpl.
      bool_cond. rewrite !bool_decide_eq_true_2; [done| |]; congruence.
  - unfold Database.update_by_name_unconditionally, bind at 1.
    rewrite select_entities_run.
    change (entities_of (drawn w)) with (entities_of w).
    destruct (List.filter _ (entities_of w)) as [|old rest] eqn:Hold; [done|].
    intros H. apply update_then_read_back in H;
      [|intros r Hr; bool_cond; simpl; auto; congruence].
    assert (Htargets : ∀ r,
      targets (ByName n (namespace md)) (entities_of w) r
      = bool_decide (row_id r = row_id old)
        && bool_decide (row_generation r = row_generation old)).
    { intros r. simpl. unfold named. by rewrite Hold. }
    apply filter_some in Hold as [Hold _].
    destruct H as (x & Hx & [[Hc ->]|(Hc & Hc' & _)]).
    + exists x. destruct (Hwritten (Database.set_all_but_identity
        (request_row request w) (fun _ => js_add (row_generation old) 1) x)
        eq_refl) as [-> ->].
      rewrite Htargets. simpl. split_and!; try done. intros Hsafe. bool_cond.
      replace (row_generation old) with (row_generation x) by done.
      by rewrite js_add_one_safe.
    + exfalso. bool_cond.
      assert (x = old) as -> by (eapply row_of_id; eauto).
      by rewrite !bool_decide_eq_true_2 in Hc.
Qed.

Lemma updateEntity_answers_with_written_row_witness :
  let w := example_world [example_row "uuid-0" "c"] [] 1 in
  let request :=
    {| locationId := None;
       entity := {| apiVersion := "a"; kind := "newer";
                    metadata := Some example_metadata; spec := None |} |} in
  let run := Database.updateEntity request w in
  run = (Ok (returned no_response run), snd run)
  ∧ ∃ r, r ∈ entities_of w
      ∧ targets (ByName "c" (Some "d")) (entities_of w) r = true
      ∧ response_uid (returned no_response run) = Some (row_id r)
      ∧ (safe_integer (row_generation r) →
         response_generation (returned no_response run)
         = Some (row_generation r + 1)).
Proof.
  intros w request run.
  assert (H : run = (Ok (returned no_response run), snd run))
    by (vm_compute; reflexivity).
  split; [exact H|].
  apply (updateEntity_answers_with_written_row request w (snd run)
           (returned no_response run) (ByName "c" (Some "d"))).
  - reflexivity.
  - reflexivity.
  - apply NoDup_singleton.
  - exact H.
Defined.

(** ** Codec round trip *)

(** X8. Encoding a request as a row and decoding that row gives back the
    api version, kind, name, namespace, labels and annotations of the
    request, its spec when that is truthy (a spec of [null], [false], [0]
    or the empty string comes back as none) and its location id (an empty
    one as none); the uid and generation of the result are those of the
    row, whatever the request carried. *)
Theorem codec_round_trip request (w w' : World) (newRow : DbEntitiesRow) :
  entityRequestToDb request w = (Ok newRow, w') →
  let resp := entityDbToResponse newRow in
  apiVersion (resp_entity resp) = apiVersion (entity request)
  ∧ kind (resp_entity resp) = kind (entity request)
  ∧ spec (resp_entity resp) = truthy_json (spec (entity request))
  ∧ response_name resp = metadata (entity request) ≫= name
  ∧ response_namespace resp = metadata (entity request) ≫= namespace
  ∧ entity_labels (resp_entity resp) = entity_labels (entity request)
  ∧ entity_annotations (resp_entity resp)
    = entity_annotations (entity request)
  ∧ resp_locationId resp = truthy_string (locationId request)
  ∧ response_uid resp = Some (row_id newRow)
  ∧ response_etag resp = Some (row_etag newRow)
  ∧ response_generation resp = Some (row_generation newRow).
Proof.
  rewrite entityRequestToDb_request_row. intros [= <- _].
  unfold response_name, response_namespace, entity_labels,
    entity_annotations, response_uid, response_etag, response_generation.
  simpl. destruct (metadata (entity request)) as [md|]; simpl.
  - split_and!; try done.
    + apply serializeSpec_truthy.
    + by destruct (name md).
    + by destruct (namespace md).
    + by destruct (labels md).
    + by destruct (annotations md).
    + by destruct (locationId request) as [[]|].
  - split_and!; try done.
    + apply serializeSpec_truthy.
    + by destruct (locationId request) as [[]|].
Qed.

Lemma codec_round_trip_witness :
  let request := example_update "claimed" 7 in
  let run := entityRequestToDb request (example_world [] [] 0) in
  let newRow := request_row request (example_world [] [] 0) in
  let resp := entityDbToResponse newRow in
  run = (Ok newRow, snd run)
  ∧ response_name resp = Some "c"
  ∧ response_uid resp = Some ""
  ∧ response_generation resp = Some 1.
Proof.
  intros request run newRow resp.
  assert (H : run = (Ok newRow, snd run)) by reflexivity.
  destruct (codec_round_trip _ _ _ _ H)
    as (_ & _ & _ & Hn & _ & _ & _ & _ & Hu & _ & Hg).
  split; [exact H|]. split; [exact Hn|]. split; [exact Hu|exact Hg].
Defined.

(** ** Looking an entity up *)

Lemma entity_run (n : string) (ns : option string) (w : World) :
  Database.entity n ns w
  = (Ok match List.filter (named n ns) (entities_of w) with
        | [row] => Some (entityDbToResponse row)
        | _ => None
        end, w).
Proof.
  unfold Database.entity, bind. rewrite select_entities_run.
  change (fun r => bool_decide (row_name r = Some n)
                   && bool_decide (row_namespace r = truthy_string ns))
    with (named n ns).
  by destruct (List.filter _ _) as [|? [|? ?]].
Qed.

Lemma filter_unique_key (rows : list DbEntitiesRow) (n : string)
    (ns : option string) (r : DbEntitiesRow) :
  NoDup (entity_key <$> rows) → r ∈ rows → named n ns r = true →
  List.filter (named n ns) rows = [r].
Proof.
  intros Hnd Hr Hn.
  assert (Hkey : ∀ x, named n ns x = true →
            entity_key x = (Some n, truthy_string ns)).
  { intros x Hx. unfold named in Hx.
    apply andb_true_iff in Hx as [?%bool_decide_eq_true ?%bool_decide_eq_true].
    unfold entity_key. congruence. }
  induction rows as [|x rows IH]; [by apply elem_of_nil in Hr|].
  rewrite fmap_cons, NoDup_cons in Hnd. destruct Hnd as [Hx Hnd].
  simpl. apply elem_of_cons in Hr as [<-|Hr].
  - rewrite Hn. f_equal. apply filter_none, Forall_forall. intros y Hy.
    apply not_true_is_false. intros Hny. destruct Hx.
    rewrite (Hkey r Hn), <- (Hkey y Hny). by apply list_elem_of_fmap_2.
  - destruct (named n ns x) eqn:Hnx; [|by apply IH].
    destruct Hx. rewrite (Hkey x Hnx), <- (Hkey r Hn).
    by apply list_elem_of_fmap_2.
Qed.

(** X9. [entity] never throws and never writes. With names stored once
    per namespace it answers with the stored entity of that name and
    namespace when there is one, and with nothing when there is none. *)
Theorem entity_finds_the_stored_row (n : string) (ns : option string)
    (w : World) :
  NoDup (entity_key <$> entities_of w) →
  (∀ r, r ∈ entities_of w → named n ns r = true →
     Database.entity n ns w = (Ok (Some (entityDbToResponse r)), w))
  ∧ ((∀ r, r ∈ entities_of w → named n ns r = false) →
     Database.entity n ns w = (Ok None, w)).
Proof.
  intros Hnd. rewrite entity_run. split.
  - intros r Hr Hn. by rewrite (filter_unique_key _ _ _ r).
  - intros Hnone. rewrite filter_none; [done|]. by apply Forall_forall.
Qed.

Lemma entity_finds_the_stored_row_witness :
  let w := example_world
             [example_row "uuid-0" "c"; example_row "uuid-1" "other"] [] 2 in
  Database.entity "c" (Some "d") w
  = (Ok (Some (entityDbToResponse (example_row "uuid-0" "c"))), w).
Proof.
  intros w.
  apply (entity_finds_the_stored_row "c" (Some "d") w).
  - apply NoDup_cons. split; [|apply NoDup_singleton].
    intros Hin%list_elem_of_singleton. discriminate Hin.
  - apply list_elem_of_here.
  - reflexivity.
Defined.

(** X10. An entity that [addEntity] has just stored is the one [entity]
    finds under its name and namespace. *)
Theorem addEntity_then_entity request (w w' : World)
    (resp : DbEntityResponse) (n : string) :
  uuid_contract w →
  entity_ids_generated w →
  metadata (entity request) ≫= name = Some n →
  n ≠ "" →
  Database.addEntity request w = (Ok resp, w') →
  Database.entity n (metadata (entity request) ≫= namespace) w'
  = (Ok (Some resp), w').
Proof.
  intros Hcontract Hgen Hname Hn.
  assert (Hrn : request_name request = Some n).
  { unfold request_name. rewrite Hname. by destruct n. }
  rewrite addEntity_run.
  destruct (existsb _ _) eqn:Hex; [done|].
  rewrite existsb_false in Hex. cbv zeta.
  unfold entities_of at 1. simpl. rewrite List.filter_app, filter_none.
  2:{ apply Forall_forall. intros r Hr. apply bool_decide_eq_false.
      apply generated_id_fresh; auto. }
  simpl. rewrite bool_decide_eq_true_2 by done. intros [= <- <-].
  rewrite entity_run. unfold entities_of at 1. simpl.
  rewrite List.filter_app, filter_none.
  2:{ apply Forall_forall. intros r Hr. apply not_true_is_false.
      intros Hnamed. specialize (Hex r Hr).
      apply not_true_iff_false in Hex. apply Hex.
      apply same_entity_key_inserted. unfold named in Hnamed.
      apply andb_true_iff in Hnamed
        as [?%bool_decide_eq_true ?%bool_decide_eq_true].
      split; [congruence|done]. }
  simpl. unfold named. simpl. rewrite Hrn.
  unfold request_namespace. by rewrite !bool_decide_eq_true_2.
Qed.

Lemma addEntity_then_entity_witness :
  let w := example_world [example_row "uuid-0" "other"] [] 1 in
  let run := Database.addEntity example_request w in
  run = (Ok (returned no_response run), snd run)
  ∧ Database.entity "c" (Some "d") (snd run)
    = (Ok (Some (returned no_response run)), snd run).
Proof.
  intros w run.
  assert (H : run = (Ok (returned no_response run), snd run))
    by (vm_compute; reflexivity).
  split; [exact H|].
  apply (addEntity_then_entity example_request w (snd run)
           (returned no_response run) "c").
  - apply example_uuid_contract.
  - apply (example_ids_generated _ _ 0%nat); [reflexivity|lia].
  - reflexivity.
  - discriminate.
  - exact H.
Defined.

(** ** Locations *)

Lemma filter_negb_none {A} (cond : A → bool) (l : list A) :
  Forall (fun x => cond x = false) l →
  List.filter (fun x => negb (cond x)) l = l.
Proof.
  induction 1 as [|x l Hx _ IH]; simpl; [done|]. by rewrite Hx, IH.
Qed.

Lemma with_locations_same (t : Tables) :
  with_locations t (locations_table t) = t.
Proof. by destruct t. Qed.

Lemma location_run (id : string) (w : World) :
  Database.location id w
  = match List.filter (has_id id) (locations_of w) with
    | [] => (Throw (no_location id), w)
    | item :: _ => (Ok item, w)
    end.
Proof.
  cbv [Database.location select_locations get_tables bind ret throw
       has_id locations_of].
  by destruct (List.filter _ _).
Qed.

Lemma removeLocation_run (id : string) (w : World) :
  Database.removeLocation id w
  = let w' :=
      set_tables
        (with_locations (tables w)
           (List.filter (fun r => negb (has_id id r)) (locations_of w))) w in
    match List.filter (has_id id) (locations_of w) with
    | [] => (Throw (no_location id), w')
    | _ :: _ => (Ok tt, w')
    end.
Proof.
  cbv [Database.removeLocation delete_locations get_tables put_tables bind
       ret throw has_id locations_of].
  by destruct (List.filter (fun r => bool_decide (loc_id r = id)) _).
Qed.

Lemma filter_other_id (id other : string) (l : list DbLocationsRow) :
  other ≠ id →
  List.filter (has_id other) (List.filter (fun x => negb (has_id id x)) l)
  = List.filter (has_id other) l.
Proof.
  intros Hother. induction l as [|y l IH]; simpl; [done|].
  destruct (has_id id y) eqn:Hy; simpl.
  - destruct (has_id other y) eqn:Hy'; [|done].
    apply bool_decide_eq_true in Hy, Hy'. congruence.
  - by rewrite IH.
Qed.

(** X11. Removing a location that is not stored fails with [NotFound] and
    leaves every table as it was. *)
Theorem removeLocation_unknown (id : string) (w : World) :
  (∀ r, r ∈ locations_of w → loc_id r ≠ id) →
  Database.removeLocation id w = (Throw (no_location id), w).
Proof.
  intros Hnone. rewrite removeLocation_run. cbv zeta.
  assert (Hall : Forall (fun r => has_id id r = false) (locations_of w)).
  { apply Forall_forall. intros r Hr. apply bool_decide_eq_false. auto. }
  rewrite filter_none, filter_negb_none by done.
  unfold locations_of. by rewrite with_locations_same, set_tables_same.
Qed.

Lemma removeLocation_unknown_witness :
  let w := example_world [] [example_location] 1 in
  Database.removeLocation "uuid-7" w = (Throw (no_location "uuid-7"), w).
Proof.
  intros w. apply (removeLocation_unknown "uuid-7" w).
  intros r ->%list_elem_of_singleton. discriminate.
Defined.

(** X12. Removing a stored location succeeds; it removes the rows of that
    id and no other, keeps the order of the rest, and afterwards
    [location] fails with [NotFound] for that id while every other
    location is still found as before. *)
Theorem removeLocation_removes (id : string) (w : World)
    (r : DbLocationsRow) :
  r ∈ locations_of w →
  loc_id r = id →
  ∃ w', Database.removeLocation id w = (Ok tt, w')
    ∧ locations_of w'
      = List.filter (fun x => negb (has_id id x)) (locations_of w)
    ∧ entities_of w' = entities_of w
    ∧ log_of w' = log_of w
    ∧ fst (Database.location id w') = Throw (no_location id)
    ∧ ∀ other, other ≠ id →
        fst (Database.location other w') = fst (Database.location other w).
Proof.
  intros Hr Hid. rewrite removeLocation_run. cbv zeta.
  destruct (List.filter (has_id id) (locations_of w)) as [|x rest] eqn:Hsel.
  { exfalso.
    assert (Hin : r ∈ List.filter (has_id id) (locations_of w)).
    { apply list_elem_of_In, filter_In. rewrite <- list_elem_of_In.
      split; [done|]. by apply bool_decide_eq_true. }
    rewrite Hsel in Hin. by apply elem_of_nil in Hin. }
  eexists. split; [reflexivity|]. split_and!; try done.
  - rewrite location_run. unfold locations_of at 1. simpl.
    rewrite filter_none; [done|]. apply Forall_forall. intros y Hy.
    apply list_elem_of_In, filter_In in Hy as [_ Hy].
    by apply negb_true_iff in Hy.
  - intros other Hother. rewrite !location_run.
    unfold locations_of at 1. simpl.
    rewrite filter_other_id by done.
    by destruct (List.filter (has_id other) (locations_of w)).
Qed.

Lemma removeLocation_removes_witness :
  let w := example_world [] [example_location] 1 in
  ∃ w', Database.removeLocation "uuid-0" w = (Ok tt, w')
    ∧ locations_of w'
      = List.filter (fun x => negb (has_id "uuid-0" x)) (locations_of w)
    ∧ entities_of w' = entities_of w
    ∧ log_of w' = log_of w
    ∧ fst (Database.location "uuid-0" w') = Throw (no_location "uuid-0")
    ∧ ∀ other, other ≠ "uuid-0" →
        fst (Database.location other w') = fst (Database.location other w).
Proof.
  intros w.
  apply (removeLocation_removes "uuid-0" w example_location).
  - apply list_elem_of_here.
  - reflexivity.
Defined.

Lemma filter_unique {A K} `{EqDecision K} (f : A → K) (l : list A) (r : A) :
  NoDup (f <$> l) → r ∈ l →
  List.filter (fun x => bool_decide (f x = f r)) l = [r].
Proof.
  intros Hnd Hr. induction l as [|x l IH]; [by apply elem_of_nil in Hr|].
  rewrite fmap_cons, NoDup_cons in Hnd. destruct Hnd as [Hx Hnd].
  simpl. apply elem_of_cons in Hr as [<-|Hr].
  - rewrite bool_decide_eq_true_2 by done. f_equal.
    apply filter_none, Forall_forall. intros y Hy.
    apply bool_decide_eq_false. intros Heq. destruct Hx. rewrite <- Heq.
    by apply list_elem_of_fmap_2.
  - case_bool_decide as Heq; [|by apply IH].
    destruct Hx. rewrite Heq. by apply list_elem_of_fmap_2.
Qed.

Lemma generated_location_id_fresh (w : World) (r : DbLocationsRow) (k : nat) :
  uuid_contract w → location_ids_generated w → r ∈ locations_of w →
  (uuid_count w ≤ k)%nat → loc_id r ≠ uuid_source w k.
Proof.
  intros [Hinj _] Hgen Hr Hk Hid.
  destruct (Hgen r Hr) as (j & Hj & Hrj).
  rewrite Hrj in Hid. apply Hinj in Hid. lia.
Qed.

Lemma addLocation_cases (location : AddDatabaseLocation) (w : World) :
  uuid_contract w → location_ids_generated w →
  (∃ existing rest,
      List.filter (has_target (add_target location)) (locations_of w)
      = existing :: rest
      ∧ Database.addLocation location w = (Ok (Some existing), w))
  ∨ (List.filter (has_target (add_target location)) (locations_of w) = []
     ∧ Database.addLocation location w
       = (Ok (Some (inserted_location location w)),
          set_tables
            (with_locations (tables w)
               (locations_of w ++ [inserted_location location w]))
            (drawn w))).
Proof.
  intros Hcontract Hgen.
  destruct (List.filter (has_target (add_target location)) (locations_of w))
    as [|existing rest] eqn:Hf.
  - right. split; [done|]. by apply addLocation_new.
  - left. exists existing, rest. split; [done|].
    by eapply addLocation_existing.
Qed.

(** X13. With identifiers as [uuidv4] promises them and location ids
    stored once each, the row [addLocation] answers with has the target
    asked for, is stored, and is the row [location] finds under its
    id. *)
Theorem addLocation_then_location (location : AddDatabaseLocation)
    (w : World) :
  uuid_contract w →
  location_ids_generated w →
  NoDup (loc_id <$> locations_of w) →
  ∃ row w',
    Database.addLocation location w = (Ok (Some row), w')
    ∧ loc_target row = add_target location
    ∧ row ∈ locations_of w'
    ∧ Database.location (loc_id row) w' = (Ok row, w').
Proof.
  intros Hcontract Hgen Hnd.
  destruct (addLocation_cases location w Hcontract Hgen)
    as [(existing & rest & Hf & ->)|[Hf ->]].
  - apply filter_some in Hf as [Hin Ht].
    exists existing, w. split_and!; try done.
    + by apply bool_decide_eq_true in Ht.
    + rewrite location_run.
      change (has_id (loc_id existing))
        with (fun x => bool_decide (loc_id x = loc_id existing)).
      by rewrite filter_unique.
  - eexists _, _. split; [reflexivity|]. split_and!; try done.
    + unfold locations_of at 1. simpl. apply elem_of_app. right.
      apply list_elem_of_here.
    + rewrite location_run. unfold locations_of at 1. simpl.
      rewrite List.filter_app, filter_none.
      * simpl. unfold has_id. simpl. by rewrite bool_decide_eq_true_2.
      * apply Forall_forall. intros r Hr. apply bool_decide_eq_false.
        by apply generated_location_id_fresh.
Qed.

Lemma addLocation_then_location_witness :
  let w := example_world [] [example_location] 1 in
  let location := {| add_type := "x"; add_target := "y" |} in
  ∃ row w',
    Database.addLocation location w = (Ok (Some row), w')
    ∧ loc_target row = add_target location
    ∧ row ∈ locations_of w'
    ∧ Database.location (loc_id row) w' = (Ok row, w').
Proof.
  intros w location.
  apply (addLocation_then_location location w).
  - apply example_uuid_contract.
  - intros r ->%list_elem_of_singleton. exists 0%nat.
    split; [simpl; lia|reflexivity].
  - apply NoDup_singleton.
Defined.

(** X14. [addLocation] keeps what it relies on: after it, identifiers
    are still as [uuidv4] promises them, every stored location id was
    generated, and no id and no target is stored twice; the rows stored
    before are all kept, in order, with at most one row added at the
    end. *)
Theorem addLocation_keeps_invariants (location : AddDatabaseLocation)
    (w : World) :
  uuid_contract w →
  location_ids_generated w →
  NoDup (loc_id <$> locations_of w) →
  NoDup (loc_target <$> locations_of w) →
  ∃ result w',
    Database.addLocation location w = (Ok result, w')
    ∧ uuid_contract w'
    ∧ location_ids_generated w'
    ∧ NoDup (loc_id <$> locations_of w')
    ∧ NoDup (loc_target <$> locations_of w')
    ∧ (locations_of w' = locations_of w
       ∨ locations_of w'
         = (locations_of w ++ [inserted_location location w])%list)
    ∧ entities_of w' = entities_of w
    ∧ log_of w' = log_of w.
Proof.
  intros Hcontract Hgen Hids Htargets.
  destruct (addLocation_cases location w Hcontract Hgen)
    as [(existing & rest & Hf & ->)|[Hf ->]].
  - exists (Some existing), w. split_and!; auto.
  - eexists _, _. split; [reflexivity|]. split_and!; try done.
    + intros r. unfold locations_of at 1. simpl.
      intros [Hr| ->%list_elem_of_singleton]%elem_of_app.
      * destruct (Hgen r Hr) as (k & Hk & Hid). exists k. split; [lia|done].
      * exists (uuid_count w). split; [lia|done].
    + unfold locations_of at 1. simpl. rewrite fmap_app.
      apply NoDup_app. split_and!; [done| |apply NoDup_singleton].
      intros id (r & -> & Hr)%list_elem_of_fmap Hnew. simpl in Hnew.
      apply list_elem_of_singleton in Hnew. revert Hnew.
      by apply generated_location_id_fresh.
    + unfold locations_of at 1. simpl. rewrite fmap_app.
      apply NoDup_app. split_and!; [done| |apply NoDup_singleton].
      intros t (r & -> & Hr)%list_elem_of_fmap Hnew. simpl in Hnew.
      apply list_elem_of_singleton in Hnew.
      apply filter_nil_Forall in Hf. rewrite Forall_forall in Hf.
      specialize (Hf r Hr). by apply bool_decide_eq_false in Hf.
    + by right.
Qed.

Lemma addLocation_keeps_invariants_witness :
  let w := example_world [] [example_location] 1 in
  let location := {| add_type := "x"; add_target := "y" |} in
  ∃ result w',
    Database.addLocation location w = (Ok result, w')
    ∧ uuid_contract w'
    ∧ location_ids_generated w'
    ∧ NoDup (loc_id <$> locations_of w')
    ∧ NoDup (loc_target <$> locations_of w')
    ∧ (locations_of w' = locations_of w
       ∨ locations_of w'
         = (locations_of w ++ [inserted_location location w])%list)
    ∧ entities_of w' = entities_of w
    ∧ log_of w' = log_of w.
Proof.
  intros w location.
  apply (addLocation_keeps_invariants location w).
  - apply example_uuid_contract.
  - intros r ->%list_elem_of_singleton. exists 0%nat.
    split; [simpl; lia|reflexivity].
  - apply NoDup_singleton.
  - apply NoDup_singleton.
Defined.

(** ** The etag *)

Lemma strip_non_word_word (s : string) : all_word_chars (strip_non_word s).
Proof.
  unfold all_word_chars. induction s as [|c s IH]; simpl; [constructor|].
  destruct (is_word_char c) eqn:Hc; [|done]. simpl. by constructor.
Qed.

(** X15. The etag of every row built from a request consists of letters,
    digits and underscores only: the characters [+], [/] and [=] of the
    base64 text are dropped. *)
Theorem entityRequestToDb_etag_word_chars request (w w' : World)
    (newRow : DbEntitiesRow) :
  entityRequestToDb request w = (Ok newRow, w') →
  all_word_chars (row_etag newRow).
Proof.
  rewrite entityRequestToDb_request_row. intros [= <- _].
  apply strip_non_word_word.
Qed.

Lemma entityRequestToDb_etag_word_chars_witness :
  let w := example_world [] [] 0 in
  entityRequestToDb example_request w
  = (Ok (request_row example_request w), drawn w)
  ∧ all_word_chars (row_etag (request_row example_request w)).
Proof.
  intros w.
  assert (H : entityRequestToDb example_request w
              = (Ok (request_row example_request w), drawn w)) by reflexivity.
  split; [exact H|].
  exact (entityRequestToDb_etag_word_chars _ _ _ _ H).
Defined.

(** ** Entity merger: what comes from the incoming entity *)

(** X16. The merged entity always has metadata, and takes its api
    version, kind, spec, name, namespace, etag and labels from the
    incoming entity; nothing of the base but its uid, generation and
    annotations enters the result. *)
Theorem mergeEntities_declaration_from_incoming
    (base incoming : DescriptorEnvelope) :
  let result := DatabaseManager.mergeEntities base incoming in
  is_Some (metadata result)
  ∧ apiVersion result = apiVersion incoming
  ∧ kind result = kind incoming
  ∧ spec result = spec incoming
  ∧ metadata result ≫= name = metadata incoming ≫= name
  ∧ metadata result ≫= namespace = metadata incoming ≫= namespace
  ∧ metadata result ≫= etag = metadata incoming ≫= etag
  ∧ entity_labels result = entity_labels incoming.
Proof.
  unfold DatabaseManager.mergeEntities, entity_labels.
  destruct (metadata base ≫= annotations) as [base_annotations|]; simpl.
  - split_and!; try done; destruct (metadata incoming) as [md|]; simpl;
      try done.
    + by destruct (name md).
    + by destruct (namespace md).
    + by destruct (etag md).
    + destruct (labels md) as [l|]; simpl; [|done].
      by rewrite (right_id_L ∅ (∪)).
  - split_and!; try done; destruct (metadata incoming) as [md|]; by simpl.
Qed.

(** ** Refresh loop: fault isolation *)

Lemma logs_more_refl (w : World) : logs_more w w [].
Proof. unfold logs_more. by rewrite app_nil_r. Qed.

Lemma logs_more_trans (w1 w2 w3 : World) d1 d2 :
  logs_more w1 w2 d1 → logs_more w2 w3 d2 → logs_more w1 w3 (d1 ++ d2).
Proof.
  intros (He1 & Hl1 & Hd1) (He2 & Hl2 & Hd2). unfold logs_more.
  rewrite He2, Hl2, Hd2, Hd1, app_assoc. done.
Qed.

Lemma addLocationUpdateLogEvent_run (locationId : string)
    (status : DatabaseLocationUpdateLogStatus)
    (entityName message : option string) (w : World) :
  ∃ w', Database.addLocationUpdateLogEvent locationId status entityName
          message w = (Ok tt, w')
    ∧ logs_more w w' [(status, locationId, entityName, message)].
Proof.
  eexists. split; [reflexivity|]. unfold logs_more, log_of. simpl.
  by rewrite fmap_app.
Qed.

Section refresh.
Context (persist : DbEntityRequest → M unit).
Context (reader : LocationReader) (parser : DescriptorParser).

Lemma item_never_throws (location : DbLocationsRow) (item : ReaderItem)
    (w : World) :
  ∃ w', item_body persist parser location item w = (Ok tt, w').
Proof.
  destruct item as [e|data]; simpl; [by eexists|].
  unfold try_catch. destruct (bind _ _ w) as [[[]|e] w1].
  - by eexists.
  - destruct (addLocationUpdateLogEvent_run (loc_id location) FAIL
      (logged_name e) (error_message <$> Some e) w1) as (w' & Hw' & _).
    by exists w'.
Qed.

Lemma items_never_throw (location : DbLocationsRow)
    (items : list ReaderItem) (w : World) :
  ∃ w', for_of items (item_body persist parser location) w = (Ok tt, w').
Proof.
  revert w. induction items as [|item items IH]; intros w; simpl.
  - by eexists.
  - unfold bind. destruct (item_never_throws location item w) as (w1 & ->).
    apply IH.
Qed.

Lemma unparsable_item (location : DbLocationsRow) (item : ReaderItem)
    (w : World) :
  unparsable parser item = true →
  ∃ w', item_body persist parser location item w = (Ok tt, w')
    ∧ logs_more w w' (item_failures parser location item).
Proof.
  destruct item as [e|data]; simpl.
  - intros _. exists w. split; [done|]. apply logs_more_refl.
  - unfold try_catch, bind, lift. destruct (parser data) as [?|e]; [done|].
    intros _.
    apply (addLocationUpdateLogEvent_run (loc_id location) FAIL
             (logged_name e) (Some (error_message e)) w).
Qed.

Lemma unparsable_items (location : DbLocationsRow)
    (items : list ReaderItem) (w : World) :
  Forall (fun item => unparsable parser item = true) items →
  ∃ w', for_of items (item_body persist parser location) w = (Ok tt, w')
    ∧ logs_more w w' (flat_map (item_failures parser location) items).
Proof.
  intros Hall. revert w.
  induction Hall as [|item items Hitem _ IH]; intros w; simpl.
  - exists w. split; [done|]. apply logs_more_refl.
  - unfold bind.
    destruct (unparsable_item location item w Hitem) as (w1 & -> & H1).
    destruct (IH w1) as (w2 & -> & H2).
    exists w2. split; [done|]. by eapply logs_more_trans.
Qed.

Lemma refreshLocationsWith_body (w : World) :
  DatabaseManager.refreshLocationsWith persist reader parser w
  = for_of (locations_of w) (location_body persist reader parser) w.
Proof.
  unfold DatabaseManager.refreshLocationsWith, bind at 1.
  by rewrite locations_run.
Qed.

Lemma location_never_throws (location : DbLocationsRow) (w : World) :
  ∃ w', location_body persist reader parser location w = (Ok tt, w').
Proof.
  unfold location_body, try_catch, bind at 1, lift.
  destruct (reader _ _) as [items|e].
  - unfold bind. destruct (items_never_throw location items w) as (w1 & ->).
    destruct (addLocationUpdateLogEvent_run (loc_id location) SUCCESS
      None None w1) as (w' & Hw' & _).
    unfold DatabaseManager.logUpdateSuccess. rewrite Hw'. by exists w'.
  - destruct (addLocationUpdateLogEvent_run (loc_id location) FAIL
      None (error_message <$> Some e) w) as (w' & Hw' & _).
    by exists w'.
Qed.

Lemma locations_never_throw (locations : list DbLocationsRow) (w : World) :
  ∃ w', for_of locations (location_body persist reader parser) w = (Ok tt, w').
Proof.
  revert w. induction locations as [|location locations IH]; intros w; simpl.
  - by eexists.
  - unfold bind.
    destruct (location_never_throws location w) as (w1 & ->). apply IH.
Qed.

Lemma failing_location (location : DbLocationsRow) (w : World) :
  nothing_parses reader parser location →
  ∃ w', location_body persist reader parser location w = (Ok tt, w')
    ∧ logs_more w w' (location_failures reader parser location).
Proof.
  unfold nothing_parses, location_failures, location_body, try_catch,
    bind at 1, lift.
  destruct (reader _ _) as [items|e]; intros Hitems.
  - unfold bind.
    destruct (unparsable_items location items w Hitems) as (w1 & -> & H1).
    destruct (addLocationUpdateLogEvent_run (loc_id location) SUCCESS
      None None w1) as (w' & Hw' & H2).
    unfold DatabaseManager.logUpdateSuccess. rewrite Hw'.
    exists w'. split; [done|]. by eapply logs_more_trans.
  - apply (addLocationUpdateLogEvent_run (loc_id location) FAIL None
             (Some (error_message e)) w).
Qed.

Lemma failing_locations (locations : list DbLocationsRow) (w : World) :
  Forall (nothing_parses reader parser) locations →
  ∃ w', for_of locations (location_body persist reader parser) w = (Ok tt, w')
    ∧ logs_more w w' (flat_map (location_failures reader parser) locations).
Proof.
  intros Hall. revert w.
  induction Hall as [|location locations Hl _ IH]; intros w; simpl.
  - exists w. split; [done|]. apply logs_more_refl.
  - unfold bind.
    destruct (failing_location location w Hl) as (w1 & -> & H1).
    destruct (IH w1) as (w2 & -> & H2).
    exists w2. split; [done|]. by eapply logs_more_trans.
Qed.

Lemma refreshLocationsWith_never_throws (w : World) :
  ∃ w', DatabaseManager.refreshLocationsWith persist reader parser w
        = (Ok tt, w').
Proof. rewrite refreshLocationsWith_body. apply locations_never_throw. Qed.

Lemma refreshLocationsWith_failures (w : World) :
  Forall (nothing_parses reader parser) (locations_of w) →
  ∃ w', DatabaseManager.refreshLocationsWith persist reader parser w
        = (Ok tt, w')
    ∧ logs_more w w'
        (flat_map (location_failures reader parser) (locations_of w)).
Proof. rewrite refreshLocationsWith_body. apply failing_locations. Qed.

End refresh.

(** X17. [refreshLocations] never throws, whatever the reader and the
    parser do: an error of the reader, of the parser or of the store is
    caught and logged, and the loop goes on. *)
Theorem refreshLocations_never_throws (reader : LocationReader)
    (parser : DescriptorParser) (w : World) :
  ∃ w', DatabaseManager.refreshLocations reader parser w = (Ok tt, w').
Proof. apply refreshLocationsWith_never_throws. Qed.

(** X18. When no item of any location parses, [refreshLocations] leaves
    the entities and the locations as they are and appends to the update
    log, location after location: for a location whose reader throws,
    one FAIL event without entity name carrying the reader's message;
    otherwise one FAIL event per data item the parser rejects, under the
    entity name of a [ParserError] and with the error's message, no event
    for an error item, and last one SUCCESS event without entity name. *)
Theorem refreshLocations_logs_failures (reader : LocationReader)
    (parser : DescriptorParser) (w : World) :
  Forall (nothing_parses reader parser) (locations_of w) →
  ∃ w', DatabaseManager.refreshLocations reader parser w = (Ok tt, w')
    ∧ logs_more w w'
        (flat_map (location_failures reader parser) (locations_of w)).
Proof. apply refreshLocationsWith_failures. Qed.

Lemma refreshLocations_logs_failures_witness :
  let w := example_world []
             [example_location;
              {| loc_id := "uuid-1"; loc_type := "a"; loc_target := "x" |}]
             2 in
  ∃ w', DatabaseManager.refreshLocations example_failing_reader
          example_rejecting_parser w = (Ok tt, w')
    ∧ logs_more w w'
        [ (FAIL, "uuid-0", Some "c", Some "malformed");
          (SUCCESS, "uuid-0", None, None);
          (FAIL, "uuid-1", None, Some "unreachable") ].
Proof.
  intros w.
  apply (refreshLocations_logs_failures example_failing_reader
           example_rejecting_parser w).
  repeat constructor.
Defined.

(** ** Refreshing a single entity *)

(** X19. An entity without metadata, without name or with an empty name
    is refused by [refreshSingleEntity] before any transaction starts:
    nothing is read, drawn or written. *)
Theorem refreshSingleEntity_nameless (locationId : string)
    (incoming : DescriptorEnvelope) (w : World) :
  truthy_string (metadata incoming ≫= name) = None →
  DatabaseManager.refreshSingleEntity locationId incoming w
  = (Throw nameless, w).
Proof.
  unfold DatabaseManager.refreshSingleEntity.
  destruct (metadata incoming) as [md|]; simpl; [|done]. by intros ->.
Qed.

Lemma refreshSingleEntity_nameless_witness :
  let incoming :=
    {| apiVersion := "a"; kind := "b";
       metadata :=
         Some {| uid := None; etag := None; generation := None;
                 name := Some ""; namespace := None; labels := None;
                 annotations := None |};
       spec := None |} in
  let w := example_world [example_row "uuid-0" "c"] [] 1 in
  DatabaseManager.refreshSingleEntity "uuid-0" incoming w
  = (Throw nameless, w).
Proof.
  intros incoming w.
  apply (refreshSingleEntity_nameless "uuid-0" incoming w). reflexivity.
Defined.

Lemma refreshSingleEntity_run (locationId : string)
    (incoming : DescriptorEnvelope) (md : Metadata) (n : string)
    (w : World) :
  metadata incoming = Some md →
  truthy_string (name md) = Some n →
  DatabaseManager.refreshSingleEntity locationId incoming w
  = Database.transaction
      (match List.filter (named n (namespace md)) (entities_of w) with
       | [r] =>
           bind (Database.updateEntity
                   (refresh_request locationId
                      (DatabaseManager.mergeEntities
                         (resp_entity (entityDbToResponse r)) incoming)))
             (fun _ => ret tt)
       | _ =>
           bind (Database.addEntity (refresh_request locationId incoming))
             (fun _ => ret tt)
       end) w.
Proof.
  intros Hmd Hn. unfold DatabaseManager.refreshSingleEntity.
  rewrite Hmd. simpl. rewrite Hn.
  unfold Database.transaction, try_catch, knex_transaction.
  unfold bind at 1. rewrite entity_run.
  by destruct (List.filter _ _) as [|r [|? ?]].
Qed.

(** X20. For an entity whose name is not stored in its namespace,
    [refreshSingleEntity] adds one row at generation 1 under a new uid,
    tied to the location, and touches no other row. *)
Theorem refreshSingleEntity_adds (locationId : string)
    (incoming : DescriptorEnvelope) (md : Metadata) (n : string)
    (w : World) :
  uuid_contract w →
  entity_ids_generated w →
  metadata incoming = Some md →
  truthy_string (name md) = Some n →
  (∀ r, r ∈ entities_of w → named n (namespace md) r = false) →
  ∃ w', DatabaseManager.refreshSingleEntity locationId incoming w
        = (Ok tt, w')
    ∧ entities_of w'
      = (entities_of w
         ++ [inserted_row (refresh_request locationId incoming) w])%list
    ∧ locations_of w' = locations_of w
    ∧ log_of w' = log_of w.
Proof.
  intros Hcontract Hgen Hmd Hn Hnone.
  rewrite (refreshSingleEntity_run _ _ md n) by done.
  rewrite filter_none by by apply Forall_forall.
  eexists. split; [|shelve].
  apply transaction_ok. unfold bind. rewrite addEntity_run.
  replace (existsb _ _) with false.
  2:{ symmetry. apply existsb_false. intros r Hr.
      apply not_true_is_false. rewrite same_entity_key_inserted.
      intros [Hname Hns]. specialize (Hnone r Hr). unfold named in Hnone.
      unfold request_name, request_namespace in *. simpl in *.
      rewrite Hmd in *. simpl in *. rewrite Hn in Hname.
      by rewrite !bool_decide_eq_true_2 in Hnone. }
  cbv zeta. unfold entities_of at 1. simpl.
  rewrite List.filter_app, filter_none.
  2:{ apply Forall_forall. intros r Hr. apply bool_decide_eq_false.
      apply generated_id_fresh; auto. }
  simpl. rewrite bool_decide_eq_true_2 by done. reflexivity.
  Unshelve. done.
Qed.

Lemma refreshSingleEntity_adds_witness :
  let w := example_world [example_row "uuid-0" "other"] [] 1 in
  ∃ w', DatabaseManager.refreshSingleEntity "uuid-0" example_entity w
        = (Ok tt, w')
    ∧ entities_of w'
      = (entities_of w
         ++ [inserted_row (refresh_request "uuid-0" example_entity) w])%list
    ∧ locations_of w' = locations_of w
    ∧ log_of w' = log_of w.
Proof.
  intros w.
  apply (refreshSingleEntity_adds "uuid-0" example_entity example_metadata
           "c" w).
  - apply example_uuid_contract.
  - apply (example_ids_generated _ _ 0%nat); [reflexivity|lia].
  - reflexivity.
  - reflexivity.
  - intros r ->%list_elem_of_singleton. reflexivity.
Defined.

Lemma update_violation_none cond set (rows : list DbEntitiesRow) :
  NoDup rows →
  (∀ x y, x ∈ rows → y ∈ rows → x ≠ y → cond x = true →
     same_entity_key (set x) (if cond y then set y else y) = false) →
  update_violation
    (map (fun r => (cond r, if cond r then set r else r)) rows) = false.
Proof.
  induction rows as [|x rows IH]; [done|].
  rewrite NoDup_cons. intros [Hx Hnd] Hkeys. simpl.
  apply orb_false_iff. split.
  - apply existsb_false. intros [t r] Hin.
    apply list_elem_of_In, in_map_iff in Hin as (y & [= <- <-] & Hy).
    apply list_elem_of_In in Hy. simpl.
    assert (x ≠ y) by (intros ->; done).
    destruct (cond x) eqn:Hcx; simpl.
    + apply (Hkeys x y); auto using list_elem_of_here, list_elem_of_further.
    + destruct (cond y) eqn:Hcy; simpl; [|done].
      rewrite same_entity_key_sym.
      specialize (Hkeys y x). rewrite Hcx in Hkeys.
      apply Hkeys; auto using list_elem_of_here, list_elem_of_further.
  - apply IH; [done|]. intros y z Hy Hz. apply Hkeys; by right.
Qed.

Lemma NoDup_rows_of_ids (rows : list DbEntitiesRow) :
  NoDup (row_id <$> rows) → NoDup rows.
Proof. apply NoDup_fmap_1. Qed.

Lemma entityDbToResponse_store_managed_fields (r : DbEntitiesRow) :
  entity_uid (resp_entity (entityDbToResponse r))
  = Some (default (row_id r) (row_metadata r ≫= uid))
  ∧ entity_generation (resp_entity (entityDbToResponse r))
    = Some (default (row_generation r) (row_metadata r ≫= generation)).
Proof.
  unfold entity_uid, entity_generation, entityDbToResponse. simpl.
  destruct (row_metadata r) as [blob|]; [|done]. simpl.
  by destruct (uid blob), (generation blob).
Qed.

Lemma merge_identity (base incoming : DescriptorEnvelope) :
  let merged := DatabaseManager.mergeEntities base incoming in
  entity_uid merged
  = match entity_uid base with
    | Some u => Some u
    | None => entity_uid incoming
    end
  ∧ entity_generation merged
    = match entity_generation base with
      | Some g => Some g
      | None => entity_generation incoming
      end
  ∧ metadata merged ≫= name = metadata incoming ≫= name
  ∧ metadata merged ≫= namespace = metadata incoming ≫= namespace
  ∧ apiVersion merged = apiVersion incoming
  ∧ kind merged = kind incoming
  ∧ spec merged = spec incoming.
Proof.
  unfold DatabaseManager.mergeEntities, entity_uid, entity_generation.
  destruct (metadata base ≫= annotations) as [base_annotations|]; simpl;
    destruct (metadata base ≫= uid), (metadata base ≫= generation);
    destruct (metadata incoming) as [md|]; simpl; split_and!; try done;
    try (by destruct (uid md)); try (by destruct (generation md));
    try (by destruct (name md)); by destruct (namespace md).
Qed.

(** X21. For an entity stored once under its name and namespace, at a
    generation that is a safe integer (below [2^53] in magnitude),
    [refreshSingleEntity] rewrites that row and no other: the row keeps
    its uid, name and namespace, its generation goes up by one, its
    location is the one refreshed from, its api version and kind are the
    incoming ones, its spec is the incoming one when that is truthy and
    NULL otherwise, and its stored metadata is that of the merge of the
    stored entity with the incoming one. *)
Theorem refreshSingleEntity_updates (locationId : string)
    (incoming : DescriptorEnvelope) (md : Metadata) (n : string)
    (w : World) (r : DbEntitiesRow) :
  metadata incoming = Some md →
  truthy_string (name md) = Some n →
  List.filter (named n (namespace md)) (entities_of w) = [r] →
  NoDup (row_id <$> entities_of w) →
  row_id r ≠ "" →
  row_generation r ≠ 0 →
  safe_integer (row_generation r) →
  plain_blob r →
  ∃ w', DatabaseManager.refreshSingleEntity locationId incoming w
        = (Ok tt, w')
    ∧ entities_of w'
      = map (fun x => if bool_decide (row_id x = row_id r)
                      then refreshed_row locationId incoming w r
                      else x) (entities_of w)
    ∧ locations_of w' = locations_of w
    ∧ log_of w' = log_of w.
Proof.
  intros Hmd Hn Hsel Hnd Hid Hgen Hsafe [Hbu Hbg].
  rewrite (refreshSingleEntity_run _ _ md n) by done. rewrite Hsel.
  pose proof Hsel as Hr. apply filter_some in Hr as [Hr Hnamed].
  set (merged := DatabaseManager.mergeEntities
                   (resp_entity (entityDbToResponse r)) incoming).
  set (request := refresh_request locationId merged).
  assert (Hbase_uid : entity_uid (resp_entity (entityDbToResponse r))
                      = Some (row_id r)).
  { destruct (entityDbToResponse_store_managed_fields r) as [-> _].
    by rewrite Hbu. }
  assert (Hbase_gen : entity_generation (resp_entity (entityDbToResponse r))
                      = Some (row_generation r)).
  { destruct (entityDbToResponse_store_managed_fields r) as [_ ->].
    by rewrite Hbg. }
  destruct (merge_identity (resp_entity (entityDbToResponse r)) incoming)
    as (Hmu & Hmg & Hmn & Hmns & Hma & Hmk & Hms).
  fold merged in Hmu, Hmg, Hmn, Hmns, Hma, Hmk, Hms.
  rewrite Hbase_uid in Hmu. rewrite Hbase_gen in Hmg.
  assert (Hstrategy : strategy_of request
            = Some (ByUidAndGeneration (row_id r) (row_generation r))).
  { unfold strategy_of, request, refresh_request. simpl.
    unfold entity_uid, entity_generation in Hmu, Hmg.
    destruct (metadata merged) as [mm|]; [|done]. simpl in *.
    rewrite Hmu, Hmg.
    assert (truthy_string (Some (row_id r)) = Some (row_id r)) as ->
      by by destruct (row_id r).
    assert (truthy_number (Some (row_generation r))
            = Some (row_generation r)) as ->
      by by destruct (row_generation r).
    done. }
  assert (Hrname : request_name request = row_name r).
  { unfold request_name, request, refresh_request. simpl. rewrite Hmn, Hmd.
    simpl. rewrite Hn. unfold named in Hnamed.
    apply andb_true_iff in Hnamed as [?%bool_decide_eq_true _]. done. }
  assert (Hrns : request_namespace request = row_namespace r).
  { unfold request_namespace, request, refresh_request. simpl.
    rewrite Hmns, Hmd. simpl. unfold named in Hnamed.
    apply andb_true_iff in Hnamed as [_ ?%bool_decide_eq_true]. done. }
  assert (Hcond : ∀ x, x ∈ entities_of w →
    (bool_decide (row_id x = row_id r)
     && bool_decide (row_generation x = row_generation r))
    = bool_decide (row_id x = row_id r)).
  { intros x Hx. case_bool_decide as Hxid; [|done]. simpl.
    assert (x = r) as -> by (eapply row_of_id; eauto).
    by apply bool_decide_eq_true. }
  assert (Hrun : Database.updateEntity request w
    = (Ok (entityDbToResponse (request_row request w)),
       set_tables
         (with_entities (tables w)
            (map (fun x => if bool_decide (row_id x = row_id r)
                           then refreshed_row locationId incoming w r
                           else x) (entities_of w)))
         (drawn w))).
  { unfold Database.updateEntity, bind at 1.
    rewrite entityRequestToDb_request_row.
    revert Hstrategy. unfold strategy_of.
    set (mm := default empty_metadata (metadata (entity request))).
    destruct (truthy_string (uid mm)) as [u|];
      [destruct (truthy_number (generation mm)) as [g|]
      |destruct (truthy_string (name mm)) as [n'|];
        [destruct (truthy_number (generation mm)) as [g|]|]];
      intros [= ]; subst.
    unfold Database.update_by_uid_with_generation_check, bind.
    rewrite update_entities_run.
    change (entities_of (drawn w)) with (entities_of w).
    change (tables (drawn w)) with (tables w).
    rewrite update_violation_none.
    - destruct (length _) as [|k] eqn:Hf.
      { exfalso. apply length_zero_iff_nil, filter_nil_Forall in Hf.
        rewrite Forall_forall in Hf. specialize (Hf r Hr). simpl in Hf.
        by rewrite !bool_decide_eq_true_2 in Hf. }
      simpl. do 3 f_equal. apply map_ext_in. intros x Hx%list_elem_of_In.
      rewrite (Hcond x Hx). case_bool_decide as Hxid; [|done].
      assert (x = r) as -> by (eapply row_of_id; eauto).
      unfold Database.set_all_but_id, refreshed_row. simpl.
      rewrite Hrname, Hrns, Hma, Hmk, Hms, serializeSpec_truthy.
      by rewrite js_add_one_safe.
    - by apply NoDup_rows_of_ids.
    - intros x y Hx Hy Hxy Hcx. rewrite (Hcond x Hx) in Hcx.
      apply bool_decide_eq_true in Hcx.
      assert (x = r) as -> by (eapply row_of_id; eauto).
      rewrite (Hcond y Hy). case_bool_decide as Hyid.
      { destruct Hxy. symmetry. eapply row_of_id; eauto. }
      unfold same_entity_key. simpl. rewrite Hrname, Hrns.
      apply not_true_is_false. intros Hkey.
      apply andb_true_iff in Hkey
        as [Hk1%bool_decide_eq_true Hk2%bool_decide_eq_true].
      assert (Hy' : y ∈ List.filter (named n (namespace md)) (entities_of w)).
      { apply list_elem_of_In, filter_In. rewrite <- list_elem_of_In.
        split; [done|]. unfold named in *.
        apply andb_true_iff in Hnamed
          as [?%bool_decide_eq_true ?%bool_decide_eq_true].
        rewrite !bool_decide_eq_true_2; [done| |]; congruence. }
      rewrite Hsel in Hy'. apply list_elem_of_singleton in Hy'. by subst. }
  eexists. split; [|shelve].
  apply transaction_ok. unfold bind. by rewrite Hrun.
  Unshelve. done.
Qed.

Lemma refreshSingleEntity_updates_witness :
  let w := example_world
             [example_row "uuid-0" "c"; example_row "uuid-1" "other"] [] 2 in
  let r := example_row "uuid-0" "c" in
  ∃ w', DatabaseManager.refreshSingleEntity "uuid-9" example_incoming_entity w
        = (Ok tt, w')
    ∧ entities_of w'
      = map (fun x => if bool_decide (row_id x = row_id r)
                      then refreshed_row "uuid-9" example_incoming_entity w r
                      else x) (entities_of w)
    ∧ locations_of w' = locations_of w
    ∧ log_of w' = log_of w.
Proof.
  intros w r.
  apply (refreshSingleEntity_updates "uuid-9" example_incoming_entity _ "c"
           w r eq_refl).
  - reflexivity.
  - reflexivity.
  - apply NoDup_cons. split; [|apply NoDup_singleton].
    intros Hin%list_elem_of_singleton. discriminate Hin.
  - discriminate.
  - discriminate.
  - reflexivity.
  - split; reflexivity.
Defined.

(** ** Listing the entities, once more *)

(** X22. [entities] never throws and writes nothing; it answers with
    every stored entity exactly once, decoded, in ascending order of
    namespace with the entities without namespace first. *)
Theorem entities_lists_every_entity_once (w : World) :
  ∃ rows,
    Database.entities w = (Ok (entityDbToResponse <$> rows), w)
    ∧ rows ≡ₚ entities_of w
    ∧ length rows = length (entities_of w)
    ∧ Sorted (ordered_by by_namespace) rows.
Proof.
  destruct (entities_by_namespace w) as (rows & Hrun & Hperm & Hsorted).
  exists rows. split_and!; try done. by rewrite Hperm.
Qed.

(** ** Update by uid: the rows it may write *)

Lemma strategy_of_uid request (u : string) :
  request_uid request = Some u →
  ∃ s, strategy_of request = Some s
       ∧ ∀ rows r, targets s rows r = true → row_id r = u.
Proof.
  unfold request_uid, strategy_of.
  destruct (metadata (entity request)) as [md|]; simpl; [|done].
  intros ->. destruct (truthy_number (generation md)) as [g|].
  - eexists. split; [reflexivity|]. intros rows r H. simpl in H.
    apply andb_true_iff in H as [H _]. by apply bool_decide_eq_true in H.
  - eexists. split; [reflexivity|]. intros rows r H.
    by apply bool_decide_eq_true in H.
Qed.

(** X23. A request that carries a uid is applied by uid whatever name it
    carries: a successful update finds a stored row of that uid, and
    every row of another uid is left exactly as it was, even one that
    has the name of the request. *)
Theorem updateEntity_by_uid_spares_others request (w w' : World)
    (resp : DbEntityResponse) (u : string) :
  request_uid request = Some u →
  Database.updateEntity request w = (Ok resp, w') →
  Exists (fun r => row_id r = u) (entities_of w)
  ∧ Forall2 (fun r r' => row_id r ≠ u → r' = r)
      (entities_of w) (entities_of w').
Proof.
  intros (s & Hs & Htargets)%strategy_of_uid
    (s' & newRow & Hs' & _ & Hex & -> & _)%updateEntity_ok.
  rewrite Hs in Hs'. injection Hs' as <-. split.
  - eapply Exists_impl; [exact Hex|]. intros r. apply Htargets.
  - apply Forall2_map_same. intros r Hr.
    destruct (targets s (entities_of w) r) eqn:Ht; [|done].
    destruct Hr. by eapply Htargets.
Qed.

Lemma updateEntity_by_uid_spares_others_witness :
  let w := example_world
             [example_row "uuid-0" "old"; example_row "uuid-1" "other"] [] 2 in
  let request := example_update "uuid-0" 1 in
  let run := Database.updateEntity request w in
  run = (Ok (returned no_response run), snd run)
  ∧ Exists (fun r => row_id r = "uuid-0") (entities_of w)
  ∧ Forall2 (fun r r' => row_id r ≠ "uuid-0" → r' = r)
      (entities_of w) (entities_of (snd run)).
Proof.
  intros w request run.
  assert (H : run = (Ok (returned no_response run), snd run))
    by (vm_compute; reflexivity).
  split; [exact H|].
  exact (updateEntity_by_uid_spares_others request w _ _ "uuid-0" eq_refl H).
Defined.
